(** * ColumbiaCals backend: meal-period resolution, ratings and refresh

    A shallow embedding of [server.py] and [run_all_scrapers.py] and the
    properties their specification states about them. *)

From Stdlib Require Import ZArith NArith QArith List String Ascii Bool Lia.
From Stdlib Require Import SpecFloat.
From stdpp Require Import gmap.
Import ListNotations.

(** ** Python strings and the built-ins the code calls on them *)

(** A Python [str] is a sequence of Unicode code points. *)
Abbreviation str := (list N).

Module Py.

(** The literal [s] as a [str]; literals of the source are ASCII, the two
    dashes are given by code point. *)
Definition u (s : string) : str :=
  map N_of_ascii (list_ascii_of_string s).

Definition en_dash : N := 8211%N.
Definition em_dash : N := 8212%N.

Fixpoint str_eqb (a b : str) : bool :=
  match a, b with
  | [], [] => true
  | x :: a', y :: b' => N.eqb x y && str_eqb a' b'
  | _, _ => false
  end.

(** [str.isspace] on one code point: the set used by [strip] and [split]. *)
Definition isspace (c : N) : bool :=
  ((9 <=? c) && (c <=? 13) || (28 <=? c) && (c <=? 32)
   || (c =? 133) || (c =? 160) || (c =? 5760)
   || (8192 <=? c) && (c <=? 8202)
   || (c =? 8232) || (c =? 8233) || (c =? 8239) || (c =? 8287)
   || (c =? 12288))%N.

(** The C-level white space [int] skips around a number. *)
Definition c_isspace (c : N) : bool :=
  ((9 <=? c) && (c <=? 13) || (c =? 32))%N.

Definition is_ascii (c : N) : bool := (c <? 128)%N.
Definition is_digit (c : N) : bool := ((48 <=? c) && (c <=? 57))%N.
Definition is_lower (c : N) : bool := ((97 <=? c) && (c <=? 122))%N.
Definition is_upper (c : N) : bool := ((65 <=? c) && (c <=? 90))%N.

Definition ascii_upper (c : N) : N := if is_lower c then (c - 32)%N else c.
Definition ascii_lower (c : N) : N := if is_upper c then (c + 32)%N else c.

(** What the interpreter's Unicode database decides outside ASCII: the
    value of a decimal digit and the case mappings of a string that is not
    pure ASCII. Nothing is assumed about them. *)
Class UnicodeDB := {
  uni_decimal : N -> option N;
  uni_upper : str -> str;
  uni_lower : str -> str;
  uni_title : str -> str
}.

Section Builtins.
Context {U : UnicodeDB}.

(** [s.upper()] and [s.lower()]: ASCII strings take the byte-wise path. *)
Definition upper (s : str) : str :=
  if forallb is_ascii s then map ascii_upper s else uni_upper s.

Definition lower (s : str) : str :=
  if forallb is_ascii s then map ascii_lower s else uni_lower s.

Fixpoint title_go (prev_cased : bool) (s : str) : str :=
  match s with
  | [] => []
  | c :: s' =>
      let cased := is_lower c || is_upper c in
      (if prev_cased then ascii_lower c else ascii_upper c)
        :: title_go cased s'
  end.

(** [s.title()]. *)
Definition title (s : str) : str :=
  if forallb is_ascii s then title_go false s else uni_title s.

Fixpoint lstrip (s : str) : str :=
  match s with
  | c :: s' => if isspace c then lstrip s' else s
  | [] => []
  end.

Definition rstrip (s : str) : str := rev (lstrip (rev s)).

(** [s.strip()]. *)
Definition strip (s : str) : str := rstrip (lstrip s).

(** [s.split()]: the maximal runs of non-space characters; [acc] holds the
    current run, last character first. *)
Fixpoint split_go (acc : str) (s : str) : list str :=
  match s with
  | [] => match acc with [] => [] | _ => [rev acc] end
  | c :: s' =>
      if isspace c
      then match acc with
           | [] => split_go [] s'
           | _ => rev acc :: split_go [] s'
           end
      else split_go (c :: acc) s'
  end.

Definition split_ws (s : str) : list str := split_go [] s.

Fixpoint startswith (s p : str) {struct p} : bool :=
  match p, s with
  | [], _ => true
  | x :: p', y :: s' => N.eqb x y && startswith s' p'
  | _ :: _, [] => false
  end.

(** [p in s] for strings. *)
Fixpoint contains (p s : str) : bool :=
  match s with
  | [] => startswith [] p
  | _ :: s' => startswith s p || contains p s'
  end.

(** The first occurrence of a separator: what is before it and after it. *)
Fixpoint split_first (sep s : str) : option (str * str) :=
  match s with
  | [] => if startswith [] sep then Some ([], []) else None
  | c :: s' =>
      if startswith s sep then Some ([], skipn (length sep) s)
      else match split_first sep s' with
           | Some (a, b) => Some (c :: a, b)
           | None => None
           end
  end.

(** [s.split(sep, 1)]. *)
Definition split1 (sep s : str) : list str :=
  match split_first sep s with
  | Some (a, b) => [a; b]
  | None => [s]
  end.

(** [s.replace(old, new)] for a non-empty [old]: occurrences are replaced
    from the left and do not overlap; [skip] counts the characters of a
    replaced occurrence still to be passed over. *)
Fixpoint replace_go (old new : str) (skip : nat) (s : str) : str :=
  match s with
  | [] => []
  | c :: s' =>
      match skip with
      | S k => replace_go old new k s'
      | O =>
          if startswith s old
          then new ++ replace_go old new (length old - 1) s'
          else c :: replace_go old new 0 s'
      end
  end.

Definition replace (old new s : str) : str :=
  match old with
  | [] => new ++ flat_map (fun c => c :: new) s
  | _ => replace_go old new 0 s
  end.

(** [int(s)]: the characters are first brought to ASCII (white space to a
    blank, decimal digits of any script to '0'..'9'), then the number is
    read in base 10: blanks, a sign, digits with single underscores between
    them, blanks. The interpreter refuses, with [ValueError] as for any
    other string it cannot read, a number written with more than
    [int_max_str_digits] digits (leading zeros count, underscores do not);
    the limit is the interpreter's default, which the server does not
    change. *)
Definition int_max_str_digits : nat := 4300.

Definition to_ascii_char (c : N) : option N :=
  if (c <? 127)%N then Some c
  else if isspace c then Some 32%N
  else if (c <? 128)%N then None
  else match uni_decimal c with
       | Some d => if (d <? 10)%N then Some (48 + d)%N else None
       | None => None
       end.

Fixpoint to_ascii (s : str) : option str :=
  match s with
  | [] => Some []
  | c :: s' =>
      match to_ascii_char c, to_ascii s' with
      | Some c', Some r => Some (c' :: r)
      | _, _ => None
      end
  end.

(** The number a string of ASCII digits denotes. *)
Definition digits_value (ds : str) : Z :=
  fold_left (fun a c => (a * 10 + Z.of_N (c - 48))%Z) ds 0%Z.

Fixpoint digits_go (after_us : bool) (acc : Z) (s : str) : option (Z * str) :=
  match s with
  | [] => if after_us then None else Some (acc, [])
  | c :: s' =>
      if is_digit c then digits_go false (acc * 10 + Z.of_N (c - 48)) s'
      else if (c =? 95)%N then
        if after_us then None else digits_go true acc s'
      else if after_us then None else Some (acc, s)
  end.

Fixpoint c_lstrip (s : str) : str :=
  match s with
  | c :: s' => if c_isspace c then c_lstrip s' else s
  | [] => []
  end.

Definition int_unsigned (s : str) : option Z :=
  match s with
  | c :: _ =>
      if is_digit c then
        match digits_go false 0 s with
        | Some (v, rest) =>
            if forallb c_isspace rest
            then if (int_max_str_digits <? length (List.filter is_digit s))%nat
                 then None
                 else Some v
            else None
        | None => None
        end
      else None
  | [] => None
  end.

Definition int_ascii (s : str) : option Z :=
  match c_lstrip s with
  | c :: s' =>
      if (c =? 43)%N then int_unsigned s'
      else if (c =? 45)%N then option_map Z.opp (int_unsigned s')
      else int_unsigned (c :: s')
  | [] => None
  end.

Definition py_int (s : str) : option Z :=
  match to_ascii s with
  | Some a => int_ascii a
  | None => None
  end.

End Builtins.

(** A database that knows nothing outside ASCII, to run examples with. *)
Definition ascii_db : UnicodeDB :=
  {| uni_decimal := fun _ => None;
     uni_upper := fun s => s;
     uni_lower := fun s => s;
     uni_title := fun s => s |}.

End Py.

Import Py.

(** ** Time parser ([server.py], lines 113-153) *)

Module TimeParser.

Local Open Scope Z_scope.

Section Defs.
Context {U : UnicodeDB}.

(** The part of [_parse_time_to_minutes] after [parts] is computed. *)
Definition minutes_of_parts (parts : list str) : option Z :=
  match parts with
  | [time_part; ampm] =>
      if negb (contains (u ":") time_part) then None
      else
        match split1 (u ":") time_part with
        | [hour_str; minute_str] =>
            match py_int hour_str, py_int minute_str with
            | Some hour, Some minute =>
                let is_pm := str_eqb (upper ampm) (u "PM") in
                let hour :=
                  if is_pm && negb (hour =? 12) then hour + 12 else hour in
                let hour :=
                  if negb is_pm && (hour =? 12) then 0 else hour in
                Some (hour * 60 + minute)
            | _, _ => None
            end
        | _ => None
        end
  | _ => None
  end.

Definition _parse_time_to_minutes (time_str : str) : option Z :=
  match time_str with
  | [] => None
  | _ => minutes_of_parts (split_ws (strip time_str))
  end.

(** The three replacements that bring the separator to a hyphen. *)
Definition normalize_separators (range_str : str) : str :=
  replace [em_dash] (u "-")
    (replace [en_dash] (u "-") (replace (u " to ") (u " - ") range_str)).

Definition _parse_time_range (range_str : str) : option (Z * Z) :=
  match range_str with
  | [] => None
  | _ =>
    let normalized := normalize_separators range_str in
    if negb (contains (u " - ") normalized) then None
    else
      match map strip (split1 (u " - ") normalized) with
      | [start_str; end_str] =>
          match _parse_time_to_minutes start_str,
                _parse_time_to_minutes end_str with
          | Some start, Some end_ => Some (start, end_)
          | _, _ => None
          end
      | _ => None
      end
  end.

Definition _is_time_in_range (current_minutes start_minutes end_minutes : Z)
  : bool :=
  if end_minutes <? start_minutes
  then (start_minutes <=? current_minutes) || (current_minutes <? end_minutes)
  else (start_minutes <=? current_minutes) && (current_minutes <? end_minutes).

End Defs.

(** *** The time strings of the specification *)

Definition digit (d : Z) : N := Z.to_N (48 + d).

(** The hour without a leading zero, the minute on two digits. *)
Definition hour_text (h : Z) : str :=
  if h <? 10 then [digit h] else [digit (h / 10); digit (h mod 10)].

Definition minute_text (m : Z) : str := [digit (m / 10); digit (m mod 10)].

(** ["H:MM AM"] or ["H:MM PM"]. *)
Definition time_text (h m : Z) (pm : bool) : str :=
  hour_text h ++ u ":" ++ minute_text m ++ u " "
    ++ (if pm then u "PM" else u "AM").

(** The minute of the day a twelve-hour clock time stands for. *)
Definition minutes_since_midnight (h m : Z) (pm : bool) : Z :=
  (h mod 12 + (if pm then 12 else 0)) * 60 + m.

(** The hour of the day the code derives from an hour and the suffix. *)
Definition clock_hour (is_pm : bool) (hour : Z) : Z :=
  if is_pm then (if hour =? 12 then 12 else hour + 12)
  else (if hour =? 12 then 0 else hour).

Definition spaces (s : str) : Prop := Forall (fun c => isspace c = true) s.
Definition digits (s : str) : Prop :=
  s <> [] /\ Forall (fun c => is_digit c = true) s.

(** The separators a range is read with: a hyphen or ["to"] between two
    blanks, and an en dash or an em dash between two blanks. *)
Definition separators : list str :=
  [u " - "; u " to "; [32%N; en_dash; 32%N]; [32%N; em_dash; 32%N]].

(** A string with no ['t'], no hyphen and no dash, as every time is. *)
Definition plain_char (c : N) : bool :=
  negb ((c =? 116) || (c =? 45) || (c =? en_dash) || (c =? em_dash))%N.

Definition plain (s : str) : Prop := forallb plain_char s = true.

(** The separators when a dash is taken alone, without blanks. *)
Definition bare_separators : list str :=
  [u " - "; u " to "; [en_dash]; [em_dash]].

(** [p] occurs in [s]. *)
Definition occurs (p s : str) : Prop := exists x y, s = x ++ p ++ y.

(** No occurrence of the pattern [p] begins within [a] in [a ++ r]. *)
Definition clear_before (p a r : str) : Prop :=
  forall x y, a = x ++ y -> y <> [] -> startswith (y ++ r) p = false.

(** A text that can stand on the left of a separator: it has no en dash
    and no em dash, and neither [" to "] nor [" - "] occurs in it, the
    blank that follows it counted in. A text that can stand on the right:
    it has no en dash and no em dash, and [" to "] does not occur in it,
    the blank before it counted in. Every time is both. *)
Definition left_side (a : str) : Prop :=
  ~ In en_dash a /\ ~ In em_dash a
  /\ ~ occurs (u " to ") (a ++ u " ") /\ ~ occurs (u " - ") (a ++ u " ").

Definition right_side (b : str) : Prop :=
  ~ In en_dash b /\ ~ In em_dash b /\ ~ occurs (u " to ") (u " " ++ b).

(** Every range of two valid times joined by one of [seps] is read as the
    pair of their minutes. *)
Definition reads_ranges_with {U : UnicodeDB} (seps : list str) : Prop :=
  forall sep h1 m1 pm1 h2 m2 pm2,
    In sep seps ->
    1 <= h1 <= 12 -> 0 <= m1 <= 59 -> 1 <= h2 <= 12 -> 0 <= m2 <= 59 ->
    _parse_time_range (time_text h1 m1 pm1 ++ sep ++ time_text h2 m2 pm2)
    = Some (minutes_since_midnight h1 m1 pm1,
            minutes_since_midnight h2 m2 pm2).

(** Every string of two parts of which the first is digits, a colon and
    digits is read as a number. *)
Definition reads_every_shape {U : UnicodeDB} : Prop :=
  forall s d1 d2 ampm,
    split_ws s = [d1 ++ u ":" ++ d2; ampm] -> digits d1 -> digits d2 ->
    _parse_time_to_minutes s <> None.

Definition zrange (lo : nat) (n : nat) : list Z := map Z.of_nat (seq lo n).

(** The check of one entry of the table of all times of a day. *)
Definition table_ok {U : UnicodeDB} (h m : Z) (pm : bool) : bool :=
  match _parse_time_to_minutes (time_text h m pm) with
  | Some r =>
      (r =? minutes_since_midnight h m pm)
      && forallb plain_char (time_text h m pm)
  | None => false
  end.

End TimeParser.

Import TimeParser.

(** ** Menu documents *)

(** A hall entry and its meal blocks, with the fields the code reads. A
    field is [None] when the key is missing from the document or null. *)
Record MealBlock := {
  meal_type : option str;
  time : option str
}.

Record Hall := {
  name : option str;
  source : option str;
  university : option str;
  status : option str;
  meals : option (list MealBlock)
}.

(** [a or b] on strings that may be missing: the first non-empty one. *)
Definition str_or (a : option str) (b : str) : str :=
  match a with
  | Some (c :: s) => c :: s
  | _ => b
  end.

(** ** Meal-period resolver ([server.py], lines 102-110 and 156-173) *)

Module Resolver.

Section Defs.
Context {U : UnicodeDB}.

Definition _normalize_meal_type (meal_type : option str) : str :=
  match meal_type with
  | None | Some [] => u "unknown"
  | Some s =>
      let value := replace (u " ") (u "_") (lower (strip s)) in
      if startswith value (u "late") then u "late_night"
      else if str_eqb value (u "all_day") then u "all_day"
      else value
  end.

(** The loop over the meal blocks: the period of the first block whose
    time range parses and holds the current minute. *)
Fixpoint scan_meals (current_minutes : Z) (meals : list MealBlock)
  : option str :=
  match meals with
  | [] => None
  | meal :: rest =>
      match _parse_time_range (str_or (time meal) []) with
      | None => scan_meals current_minutes rest
      | Some (start, end_) =>
          if _is_time_in_range current_minutes start end_
          then Some (_normalize_meal_type (meal_type meal))
          else scan_meals current_minutes rest
      end
  end.

(** [default_period] is what [get_current_meal_period()] answers at the
    moment of the call; [now_hour] and [now_minute] are the New York wall
    clock. *)
Definition _get_hall_current_period
  (default_period : str) (now_hour now_minute : Z) (hall : Hall) : str :=
  match meals hall with
  | None | Some [] => default_period
  | Some (first :: rest) =>
      let current_minutes := (now_hour * 60 + now_minute)%Z in
      match scan_meals current_minutes (first :: rest) with
      | Some period => period
      | None => _normalize_meal_type (meal_type first)
      end
  end.

(** A block whose time range parses and holds the current minute. *)
Definition active (current_minutes : Z) (meal : MealBlock) : bool :=
  match _parse_time_range (str_or (time meal) []) with
  | Some (start, end_) => _is_time_in_range current_minutes start end_
  | None => false
  end.

End Defs.

(** A blank becomes an underscore. *)
Definition underscore (c : N) : N := if (c =? 32)%N then 95%N else c.

(** The hall of the specification's example: breakfast from 7:00 AM to
    10:30 AM and a late-night block from 10:00 PM to 1:00 AM. *)
Definition hall_x : Hall :=
  {| name := Some (u "X"); source := Some (u "columbia");
     university := None; status := Some (u "open");
     meals := Some
       [ {| meal_type := Some (u "Breakfast");
            time := Some (u "7:00 AM - 10:30 AM") |};
         {| meal_type := Some (u "Late Night");
            time := Some (u "10:00 PM - 1:00 AM") |} ] |}.

End Resolver.

Import Resolver.

(** ** JSON data and exceptions *)

(** The numbers of a JSON document are Python ints and binary64 floats. *)
Abbreviation float := spec_float.

(** A Python object as [json.load] builds it. A dict is the list of its
    items in insertion order; [VOpaque] is any object that is not JSON data
    (a function, a module, a lock). *)
#[warnings="-register-all"]
Inductive value :=
| VNone
| VBool (b : bool)
| VInt (z : Z)
| VFloat (f : float)
| VStr (s : str)
| VList (l : list value)
| VDict (d : list (str * value))
| VOpaque.

Inductive exn :=
| NameError (n : string)
| TypeError
| AttributeError
| ValueError
| KeyError
| OverflowError.

(** The outcome of code that may raise. *)
Inductive result (A : Type) :=
| Ok (a : A)
| Raise (e : exn).
Arguments Ok {A} a.
Arguments Raise {A} e.

#[global] Instance result_ret : MRet result := fun A a => Ok a.
#[global] Instance result_bind : MBind result := fun A B f m =>
  match m with
  | Ok a => f a
  | Raise e => Raise e
  end.

Module Json.

Definition float_is_zero (f : float) : bool :=
  match f with
  | S754_zero _ => true
  | _ => false
  end.

(** Truth value of an object, as [if x] and [not x] take it. *)
Definition truthy (v : value) : bool :=
  match v with
  | VNone => false
  | VBool b => b
  | VInt z => negb (z =? 0)%Z
  | VFloat f => negb (float_is_zero f)
  | VStr s => match s with [] => false | _ => true end
  | VList l => match l with [] => false | _ => true end
  | VDict d => match d with [] => false | _ => true end
  | VOpaque => true
  end.

(** [a or b]. *)
Definition py_or (a b : value) : value := if truthy a then a else b.

Fixpoint dict_lookup (d : list (str * value)) (k : str) : option value :=
  match d with
  | [] => None
  | (k', v) :: d' => if str_eqb k' k then Some v else dict_lookup d' k
  end.

(** [k in d]. *)
Definition has_key (d : list (str * value)) (k : str) : bool :=
  match dict_lookup d k with
  | Some _ => true
  | None => false
  end.

(** [d.get(k, dflt)]; [d.get(k)] is [get d k VNone]. *)
Definition get (d : list (str * value)) (k : str) (dflt : value) : value :=
  match dict_lookup d k with
  | Some v => v
  | None => dflt
  end.

(** The elements a [for] loop visits. *)
Definition iterate (v : value) : result (list value) :=
  match v with
  | VList l => Ok l
  | VDict d => Ok (map (fun kv => VStr (fst kv)) d)
  | VStr s => Ok (map (fun c => VStr [c]) s)
  | _ => Raise TypeError
  end.

End Json.

Import Json.

(** ** Legacy schema normalizer ([server.py], lines 258-310) *)

Module Legacy.

Section Defs.
Context {U : UnicodeDB}.
(** [str(x)] of an object that is not a string. *)
Variable py_str_other : value -> str.

Definition py_str (v : value) : str :=
  match v with
  | VStr s => s
  | _ => py_str_other v
  end.

(** One pass of the loop over the raw items: [None] when the item is
    skipped. *)
Definition legacy_item (item : value) : result (option value) :=
  '(name, data) ←
    match item with
    | VStr s => Ok (VStr s, [])
    | VDict d => Ok (get d (u "name") (VStr []), d)
    | _ => Raise AttributeError
    end;
  if negb (truthy name) then Ok None
  else
    Ok (Some (VDict [
      (u "name", name);
      (u "description", VNone);
      (u "allergens", VList []);
      (u "dietary_prefs", VList []);
      (u "calories", get data (u "calories") VNone);
      (u "protein", get data (u "protein") (get data (u "protein_g") VNone));
      (u "carbs", get data (u "carbs") (get data (u "carbs_g") VNone));
      (u "fat", get data (u "fat") (get data (u "fat_g") VNone));
      (u "estimated",
         VBool (truthy (get data (u "estimated") (VBool false))))
    ])).

Fixpoint legacy_items (raw_items : list value) : result (list value) :=
  match raw_items with
  | [] => Ok []
  | item :: rest =>
      r ← legacy_item item;
      items ← legacy_items rest;
      Ok (match r with Some i => i :: items | None => items end)
  end.

(** [now_iso] is [datetime.now().isoformat()] at the call. *)
Definition _normalize_legacy_hall (now_iso : str) (hall : list (str * value))
  : result (list (str * value)) :=
  if has_key hall (u "meals") then Ok hall
  else
    let raw_items :=
      py_or (get hall (u "food_items_with_nutrition") VNone)
        (py_or (get hall (u "food_items") VNone) (VList [])) in
    raw ← iterate raw_items;
    items ← legacy_items raw;
    let meal_period := get hall (u "meal_period") (VStr (u "meal")) in
    let meals := VList [VDict [
      (u "meal_type", VStr (title (py_str meal_period)));
      (u "time",
         get hall (u "hours") (get hall (u "operating_hours") (VStr [])));
      (u "stations", VList [VDict [
         (u "station", VStr (u "Menu"));
         (u "items", VList items)]])
    ]] in
    let status :=
      match items with [] => u "open_no_menu" | _ => u "open" end in
    Ok [
      (u "name", get hall (u "name") (VStr (u "Dining Hall")));
      (u "meals", meals);
      (u "status", get hall (u "status") (VStr status));
      (u "source", get hall (u "source") (VStr (u "legacy")));
      (u "scraped_at", get hall (u "scraped_at") (VStr now_iso));
      (u "operating_hours",
         get hall (u "hours") (get hall (u "operating_hours") VNone));
      (u "is_open", get hall (u "is_open") VNone)
    ].

End Defs.

(** A document of the legacy shape, and a canonical one. *)
Definition legacy_doc : list (str * value) :=
  [ (u "name", VStr (u "John Jay"));
    (u "hours", VStr (u "11:00 AM - 2:00 PM"));
    (u "meal_period", VStr (u "lunch"));
    (u "food_items",
       VList [ VStr (u "Pizza");
               VDict [ (u "name", VStr (u "Soup"));
                       (u "protein_g", VInt 5) ];
               VStr [] ]) ].

Definition canonical_doc : list (str * value) :=
  [ (u "name", VStr (u "Ferris"));
    (u "meals", VList []);
    (u "status", VStr (u "closed")) ].

End Legacy.

(** ** Floats: what [float()], the comparisons and [round(x, 1)] compute *)

Module Float64.

Definition prec : Z := 53.
Definition emax : Z := 1024.

(** The double nearest to an integer (ties to even). *)
Definition of_Z (z : Z) : float := binary_normalize prec emax z 0 false.

(** [float(n)] of an int: too large an int raises. *)
Definition of_int (z : Z) : result float :=
  match of_Z z with
  | S754_infinity _ => Raise OverflowError
  | f => Ok f
  end.

Definition leb (a b : float) : bool := SFleb a b.

(** The double nearest to [m * 10^e] with the given sign. *)
Definition of_decimal (neg : bool) (m e : Z) : float :=
  match m with
  | Zpos p =>
      if (0 <=? e)%Z
      then binary_normalize prec emax
             ((if neg then Z.opp m else m) * 10 ^ e) 0 false
      else SFdiv prec emax (S754_finite neg p 0)
             (S754_finite false (Z.to_pos (10 ^ (- e))) 0)
  | _ => S754_zero neg
  end.

(** The integer nearest to [n / d], ties to the even one. *)
Definition div_half_even (n d : Z) : Z :=
  let q := (n / d)%Z in
  let r := (n mod d)%Z in
  if (2 * r <? d)%Z then q
  else if (d <? 2 * r)%Z then (q + 1)%Z
  else if Z.even q then q else (q + 1)%Z.

(** [round(x, 1)]: the decimal with one digit after the point nearest to
    the exact value of [x] (ties to even), read back as a double. *)
Definition round1 (x : float) : float :=
  match x with
  | S754_finite s m e =>
      let n := (10 * Zpos m)%Z in
      let k := if (0 <=? e)%Z then (n * 2 ^ e)%Z
               else div_half_even n (2 ^ (- e)) in
      of_decimal s k (-1)
  | _ => x
  end.

Section Parse.
Context {U : UnicodeDB}.

(** A run of digits with single underscores between them; the digits are
    returned last first. An empty run is allowed. *)
Fixpoint digit_run (after_us : bool) (acc : str) (s : str)
  : option (str * str) :=
  match s with
  | [] => if after_us then None else Some (acc, [])
  | c :: s' =>
      if is_digit c then digit_run false (c :: acc) s'
      else if after_us then None
      else if (c =? 95)%N then
        match acc with
        | [] => Some (acc, s)
        | _ => digit_run true acc s'
        end
      else Some (acc, s)
  end.

Definition sign_of (s : str) : bool * str :=
  match s with
  | c :: s' =>
      if (c =? 45)%N then (true, s')
      else if (c =? 43)%N then (false, s')
      else (false, s)
  | [] => (false, [])
  end.

Definition is_e (c : N) : bool := ((c =? 101) || (c =? 69))%N.

(** The number after the sign: digits, a point, digits, an exponent. *)
Definition float_number (neg : bool) (s : str) : option float :=
  match digit_run false [] s with
  | None => None
  | Some (ip, r1) =>
      let frac :=
        match r1 with
        | c :: r => if (c =? 46)%N then digit_run false [] r
                    else Some ([], r1)
        | [] => Some ([], [])
        end in
      match frac with
      | None => None
      | Some (fp, r2) =>
          match ip, fp with
          | [], [] => None
          | _, _ =>
              let m := digits_value (rev ip ++ rev fp) in
              let shift := Z.of_nat (length fp) in
              match r2 with
              | [] => Some (of_decimal neg m (- shift))
              | c :: r =>
                  if is_e c then
                    let '(eneg, r') := sign_of r in
                    match digit_run false [] r' with
                    | Some (d :: ds, []) =>
                        let ex := digits_value (rev (d :: ds)) in
                        Some (of_decimal neg m
                                ((if eneg then - ex else ex) - shift))
                    | _ => None
                    end
                  else None
              end
          end
      end
  end.

Definition float_ascii (s : str) : option float :=
  let body := rev (c_lstrip (rev (c_lstrip s))) in
  let '(neg, r) := sign_of body in
  let l := map ascii_lower r in
  if str_eqb l (u "inf") || str_eqb l (u "infinity")
  then Some (S754_infinity neg)
  else if str_eqb l (u "nan") then Some S754_nan
  else float_number neg r.

(** [float(s)] of a string: [None] is a [ValueError]. *)
Definition of_str (s : str) : option float :=
  match to_ascii s with
  | Some a => float_ascii a
  | None => None
  end.

(** [float(x)]. *)
Definition py_float (v : value) : result float :=
  match v with
  | VFloat f => Ok f
  | VInt z => of_int z
  | VBool b => Ok (of_Z (if b then 1 else 0))
  | VStr s =>
      match of_str s with
      | Some f => Ok f
      | None => Raise ValueError
      end
  | _ => Raise TypeError
  end.

End Parse.

End Float64.

Import Float64.

(** ** Hall lookup for a request ([server.py], lines 184-210) *)

Module Lookup.

Section Defs.
Context {U : UnicodeDB}.
(** [menu] is what [_load_menu_data()] returns. *)
Variable menu : list Hall.
Variable default_period : str.
Variables now_hour now_minute : Z.

(** [x.lower()] of an object: only strings have the method. *)
Definition value_lower (v : value) : result str :=
  match v with
  | VStr s => Ok (lower s)
  | _ => Raise AttributeError
  end.

(** [hall.get("name") != hall_name]. *)
Definition name_differs (hall : Hall) (hall_name : value) : bool :=
  match name hall, hall_name with
  | Some n, VStr s => negb (str_eqb n s)
  | None, VNone => false
  | _, _ => true
  end.

Definition source_tag (hall : Hall) : str :=
  lower (str_or (source hall) (str_or (university hall) [])).

Definition matches (hall_name university : value) (hall : Hall)
  : result bool :=
  if name_differs hall hall_name then Ok false
  else if negb (truthy university) then Ok true
  else
    uni ← value_lower university;
    let source := source_tag hall in
    if str_eqb uni (u "columbia")
    then Ok (str_eqb source (u "columbia") || str_eqb source (u "barnard"))
    else Ok (str_eqb source uni).

Fixpoint first_match (hall_name university : value) (data : list Hall)
  : result (option Hall) :=
  match data with
  | [] => Ok None
  | hall :: rest =>
      matches hall_name university hall ≫= λ m : bool,
      if m then Ok (Some hall) else first_match hall_name university rest
  end.

Definition _find_hall_entry (hall_name university : value)
  : result (option Hall) :=
  if negb (truthy hall_name) then Ok None
  else first_match hall_name university menu.

Definition _get_hall_period_for_request (hall_name university : value)
  : result str :=
  h ← _find_hall_entry hall_name university;
  match h with
  | Some hall =>
      Ok (_get_hall_current_period default_period now_hour now_minute hall)
  | None => Ok default_period
  end.

End Defs.

End Lookup.

Import Lookup.

(** What a request handler answers: a JSON body with its status, or an
    exception that leaves the handler. *)
Inductive response (A : Type) :=
| Json200 (body : A)
| Json400 (error : string)
| Json500
| Unhandled (e : exn).
Arguments Json200 {A} body.
Arguments Json400 {A} error.
Arguments Json500 {A}.
Arguments Unhandled {A} e.

(** ** Rating submission ([server.py], lines 401-455) *)

Module Ratings.

Section Defs.
Context {U : UnicodeDB}.
Variable menu : list Hall.
Variable default_period : str.
Variables now_hour now_minute : Z.
(** [get_current_date()]. *)
Variable current_date : str.
(** The ratings store and [submit_rating] of the [database] module: the
    store after the call, and whether the call raised. *)
Variable DB : Type.
Variable submit_rating :
  value -> value -> str -> str -> float -> str -> DB -> DB * bool.

(** [field in data]. *)
Definition field_in (data : value) (field : str) : result bool :=
  match data with
  | VDict d => Ok (has_key d field)
  | VList l =>
      Ok (existsb (fun x => match x with
                            | VStr s => str_eqb s field
                            | _ => false
                            end) l)
  | VStr s => Ok (contains field s)
  | _ => Raise TypeError
  end.

(** [all(field in data for field in fields)]. *)
Fixpoint all_in (data : value) (fields : list str) : result bool :=
  match fields with
  | [] => Ok true
  | f :: rest =>
      field_in data f ≫= λ b : bool,
      if b then all_in data rest else Ok false
  end.

(** [data[key]] with a string key. *)
Definition subscript (data : value) (key : str) : result value :=
  match data with
  | VDict d =>
      match dict_lookup d key with
      | Some v => Ok v
      | None => Raise KeyError
      end
  | _ => Raise TypeError
  end.

Definition required : list str :=
  [u "device_id"; u "hall_name"; u "university"; u "rating"].

(** The body of a successful answer: the resolved period and the stored
    rating. *)
Definition post_rating (data : value) (db : DB)
  : response (str * float) * DB :=
  if negb (truthy data) then (Json400 "Missing required fields", db)
  else
    match all_in data required with
    | Raise e => (Unhandled e, db)
    | Ok false => (Json400 "Missing required fields", db)
    | Ok true =>
        match (v ← subscript data (u "rating"); py_float v) with
        | Raise ValueError | Raise TypeError =>
            (Json400 "Rating must be a number", db)
        | Raise e => (Unhandled e, db)
        | Ok rating =>
            if negb (leb (of_Z 0) rating && leb rating (of_Z 10))
            then (Json400 "Rating must be between 0 and 10", db)
            else
              let rating := round1 rating in
              match (hn ← subscript data (u "hall_name");
                     un ← subscript data (u "university");
                     _get_hall_period_for_request menu default_period
                       now_hour now_minute hn un) with
              | Raise e => (Unhandled e, db)
              | Ok meal_period =>
                  match (dev ← subscript data (u "device_id");
                         hn ← subscript data (u "hall_name");
                         un ← subscript data (u "university");
                         uni ← value_lower un;
                         Ok (dev, hn, uni) : result (value * value * str))
                  with
                  | Raise _ => (Json500, db)
                  | Ok (dev, hn, uni) =>
                      let '(db', raised) :=
                        submit_rating dev hn uni meal_period rating
                          current_date db in
                      if raised then (Json500, db')
                      else (Json200 (meal_period, rating), db')
                  end
              end
        end
    end.

(** A required field is missing from a JSON object. *)
Definition missing_field (d : list (str * value)) : bool :=
  negb (forallb (has_key d) required).

(** [0 <= rating <= 10]. *)
Definition in_range (rating : float) : bool :=
  leb (of_Z 0) rating && leb rating (of_Z 10).

End Defs.

(** A store that keeps the rows it is given, and a request for the hall
    "John Jay" of Columbia with the given rating. *)
Definition row : Type := value * value * str * str * float * str.

Definition keep_row (device_id hall_name : value)
  (university meal_period : str) (rating : float) (date : str)
  (db : list row) : list row * bool :=
  ((device_id, hall_name, university, meal_period, rating, date) :: db,
   false).

Definition rating_request (rating : value) : value :=
  VDict [ (u "device_id", VStr (u "device-1"));
          (u "hall_name", VStr (u "John Jay"));
          (u "university", VStr (u "Columbia"));
          (u "rating", rating) ].

(** The doubles written [7.46], [7.5] and [10.05]. *)
Definition f7_46 : float := of_decimal false 746 (-2).
Definition f7_5 : float := of_decimal false 75 (-1).
Definition f10_05 : float := of_decimal false 1005 (-2).

End Ratings.

(** ** Averages query ([server.py], lines 458-520) *)

Module Averages.

Local Open Scope string_scope.

Section Defs.
Context {U : UnicodeDB}.
Variable menu : list Hall.
Variable default_period : str.
Variables now_hour now_minute : Z.
Variable current_date : str.
(** The two paths computed when the module is loaded. *)
Variables base_dir menu_file : str.
(** A stored average with its count, and [get_all_rating_averages(date,
    university)] of the [database] module: per hall key, per period;
    [None] when the call raises. *)
Variable Avg : Type.
Variable get_all_rating_averages :
  str -> option str -> option (gmap str (gmap str Avg)).

(** The names bound at module level of [server.py] once it is loaded
    (imports, assignments and definitions), with the objects they are bound
    to. *)
Definition server_globals : list (string * value) :=
  [("Flask", VOpaque); ("jsonify", VOpaque); ("request", VOpaque);
   ("CORS", VOpaque); ("json", VOpaque); ("threading", VOpaque);
   ("schedule", VOpaque); ("time", VOpaque); ("subprocess", VOpaque);
   ("sys", VOpaque); ("os", VOpaque); ("datetime", VOpaque);
   ("init_db", VOpaque); ("get_rating_averages", VOpaque);
   ("get_all_rating_averages", VOpaque); ("submit_rating", VOpaque);
   ("get_user_rating", VOpaque); ("get_current_meal_period", VOpaque);
   ("get_current_date", VOpaque); ("ZoneInfo", VOpaque);
   ("app", VOpaque); ("BASE_DIR", VStr base_dir);
   ("MENU_FILE", VStr menu_file); ("NY_TZ", VOpaque);
   ("update_menus", VOpaque); ("_normalize_meal_type", VOpaque);
   ("_parse_time_to_minutes", VOpaque); ("_parse_time_range", VOpaque);
   ("_is_time_in_range", VOpaque); ("_get_hall_current_period", VOpaque);
   ("_load_menu_data", VOpaque); ("_find_hall_entry", VOpaque);
   ("_get_hall_period_for_request", VOpaque); ("run_scheduler", VOpaque);
   ("_refresh_lock", VOpaque); ("_refresh_in_progress", VOpaque);
   ("_run_update_menus_guarded", VOpaque);
   ("trigger_refresh_async", VOpaque); ("_normalize_legacy_hall", VOpaque);
   ("scheduler_thread", VOpaque); ("get_dining_halls", VOpaque);
   ("refresh_menus", VOpaque); ("home", VOpaque); ("status", VOpaque);
   ("usda_search", VOpaque); ("post_rating", VOpaque);
   ("get_averages", VOpaque); ("get_user_rating_endpoint", VOpaque);
   ("get_leaderboard_endpoint", VOpaque);
   ("get_user_stats_endpoint", VOpaque)].

(** Reading a name the function does not assign: the module-level binding,
    and [NameError] when there is none (no built-in has the name read
    here). *)
Fixpoint load_global (globals : list (string * value)) (n : string)
  : result value :=
  match globals with
  | [] => Raise (NameError n)
  | (m, v) :: rest => if String.eqb m n then Ok v else load_global rest n
  end.

(** The [university] query argument as the handler keeps it: lowered when
    it is not empty. *)
Definition lowered (university : option str) : option str :=
  match university with
  | Some (c :: s) => Some (lower (c :: s))
  | other => other
  end.

Definition given (university : option str) : bool :=
  match university with
  | Some (_ :: _) => true
  | _ => false
  end.

Definition as_value (university : option str) : value :=
  match university with
  | Some s => VStr s
  | None => VNone
  end.

(** The test that skips the halls of other universities. *)
Definition kept (university : option str) (source : str) : bool :=
  match university with
  | Some (c :: s) =>
      if str_eqb (c :: s) (u "columbia")
      then str_eqb source (u "columbia") || str_eqb source (u "barnard")
      else str_eqb source (c :: s)
  | _ => true
  end.

(** [hall["name"]], and the key built from it. *)
Definition hall_key (university : option str) (hall : Hall) : result str :=
  match name hall with
  | None => Raise KeyError
  | Some n =>
      if given university then Ok n
      else Ok (source_tag hall ++ u ":" ++ n)%list
  end.

Fixpoint hall_periods_loop (university : option str) (halls : list Hall)
  (hall_periods : gmap str str) : result (gmap str str) :=
  match halls with
  | [] => Ok hall_periods
  | hall :: rest =>
      if negb (kept university (source_tag hall))
      then hall_periods_loop university rest hall_periods
      else
        key ← hall_key university hall;
        hall_periods_loop university rest
          (<[key := _get_hall_current_period default_period now_hour
                      now_minute hall]> hall_periods)
  end.

(** The second loop: the stored entry of each key for its period. *)
Definition select_ratings (hall_periods : gmap str str)
  (all_ratings : gmap str (gmap str Avg)) : gmap str Avg :=
  map_imap (fun key period =>
              match all_ratings !! key with
              | Some period_ratings => period_ratings !! period
              | None => None
              end) hall_periods.

(** The [try] block, with [meal_period] already computed. *)
Definition averages_try (university : option str) (meal_period : str)
  : response (str * str * gmap str Avg) :=
  match hall_periods_loop university menu ∅ with
  | Raise _ => Json500
  | Ok hall_periods =>
      match get_all_rating_averages current_date university with
      | None => Json500
      | Some all_ratings =>
          Json200 (meal_period, current_date,
                   select_ratings hall_periods all_ratings)
      end
  end.

(** [university_arg] is [request.args.get('university')]. *)
Definition get_averages (university_arg : option str)
  : response (str * str * gmap str Avg) :=
  let university := lowered university_arg in
  match (hall_name ← load_global server_globals "hall_name";
         _get_hall_period_for_request menu default_period now_hour
           now_minute hall_name (as_value university)) with
  | Raise e => Unhandled e
  | Ok meal_period => averages_try university meal_period
  end.

(** The key a hall is filed under, when it is kept. *)
Definition key_of (university : option str) (hall : Hall) : option str :=
  if kept university (source_tag hall)
  then match hall_key university hall with
       | Ok key => Some key
       | Raise _ => None
       end
  else None.

(** The period of the last hall of the list filed under [key]. *)
Fixpoint period_of (university : option str) (key : str) (halls : list Hall)
  : option str :=
  match halls with
  | [] => None
  | hall :: rest =>
      match period_of university key rest with
      | Some period => Some period
      | None =>
          match key_of university hall with
          | Some k =>
              if str_eqb k key
              then Some (_get_hall_current_period default_period now_hour
                           now_minute hall)
              else None
          | None => None
          end
      end
  end.

(** Every hall that is kept has a name. *)
Definition named (university : option str) (halls : list Hall) : Prop :=
  Forall (fun hall => kept university (source_tag hall) = true ->
                      name hall <> None) halls.

End Defs.

End Averages.

(** ** Scraper runner ([run_all_scrapers.py], lines 34-153) *)

Module Scrapers.

(** The file [menu_data.json]. *)
Inductive file :=
| Absent
| Unreadable
| Doc (halls : list Hall).

Section Defs.
Context {U : UnicodeDB}.

Definition _get_source_tag (item : Hall) : str :=
  lower (str_or (source item) (str_or (university item) [])).

Definition _filter_by_source (data : list Hall) (source : str) : list Hall :=
  List.filter (fun r => str_eqb (_get_source_tag r) source) data.

Definition is_error (r : Hall) : bool :=
  match status r with
  | Some s => str_eqb s (u "error")
  | None => false
  end.

Definition _is_scrape_successful (results : list Hall) (source : str)
  : bool :=
  match results with
  | [] => false
  | _ =>
      match _filter_by_source results source with
      | [] => false
      | src_results => existsb (fun r => negb (is_error r)) src_results
      end
  end.

(** The results of one university after the fallback to the saved data. *)
Definition with_fallback (results existing_data : list Hall) (source : str)
  : list Hall :=
  if _is_scrape_successful results source then results
  else
    match _filter_by_source existing_data source with
    | [] => results
    | fallback => fallback
    end.

Definition error_count (all_results : list Hall) : Z :=
  Z.of_nat (length (List.filter is_error all_results)).

(** [all_results and error_count > len(all_results) / 2]; the division is
    the true division of Python. *)
Definition too_many_errors (all_results : list Hall) : bool :=
  match all_results with
  | [] => false
  | _ =>
      negb (Qle_bool (inject_Z (error_count all_results))
              (Qmake (Z.of_nat (length all_results)) 2))
  end.

(** [columbia] and [cornell] are what the two scrapers return, [None] when
    they raise. The result is the file afterwards and the returned list. *)
Definition run_all_scrapers (output_file : file)
  (columbia cornell : option (list Hall)) : file * list Hall :=
  let existing_data :=
    match output_file with
    | Doc halls => halls
    | _ => []
    end in
  let columbia_results := default [] columbia in
  let cornell_results := default [] cornell in
  let columbia_results :=
    with_fallback columbia_results existing_data (u "columbia") in
  let cornell_results :=
    with_fallback cornell_results existing_data (u "cornell") in
  let all_results := columbia_results ++ cornell_results in
  if too_many_errors all_results then (output_file, all_results)
  else (Doc all_results, all_results).

End Defs.

(** Sample entries: a hall of the given source with the given status. *)
Definition sample_hall (hall_name source_tag hall_status : string) : Hall :=
  {| name := Some (u hall_name); source := Some (u source_tag);
     university := None; status := Some (u hall_status); meals := None |}.

End Scrapers.

(** ** Refresh orchestration ([server.py], lines 212-256) *)

Module Refresh.

(** Where a thread started by [trigger_refresh_async] stands in
    [_run_update_menus_guarded]. *)
Inductive worker :=
| Acquire            (* about to enter [with _refresh_lock] *)
| Test               (* holds the lock, about to read the flag *)
| SetFlag            (* holds the lock, saw the flag clear *)
| Leave (skip : bool) (* about to release the lock; [skip]: returns *)
| Run                (* inside [update_menus()] *)
| Clear              (* in the [finally] clause *)
| Done.

(** The scheduler thread: waiting in its loop, or inside the daily job. *)
Inductive scheduler :=
| Waiting
| Job.

Record state := {
  lock : bool;               (* [_refresh_lock] is held *)
  flag : bool;               (* [_refresh_in_progress] is set *)
  workers : list worker;
  sched : scheduler
}.

Definition init : state :=
  {| lock := false; flag := false; workers := []; sched := Waiting |}.

Definition move (s : state) (i : nat) (w : worker) (l f : bool) : state :=
  {| lock := l; flag := f; workers := <[i := w]> (workers s);
     sched := sched s |}.

(** One atomic step of one thread. [auto_refresh] is the setting read by
    [run_scheduler]: the daily job is registered only when it is on. *)
Inductive step (auto_refresh : bool) : state -> state -> Prop :=
| step_trigger s :
    step auto_refresh s
      {| lock := lock s; flag := flag s;
         workers := workers s ++ [Acquire]; sched := sched s |}
| step_acquire s i :
    workers s !! i = Some Acquire -> lock s = false ->
    step auto_refresh s (move s i Test true (flag s))
| step_test s i :
    workers s !! i = Some Test ->
    step auto_refresh s
      (move s i (if flag s then Leave true else SetFlag) (lock s) (flag s))
| step_set s i :
    workers s !! i = Some SetFlag ->
    step auto_refresh s (move s i (Leave false) (lock s) true)
| step_leave s i skip :
    workers s !! i = Some (Leave skip) ->
    step auto_refresh s
      (move s i (if skip then Done else Run) false (flag s))
| step_finish s i :
    workers s !! i = Some Run ->
    step auto_refresh s (move s i Clear (lock s) (flag s))
| step_clear s i :
    workers s !! i = Some Clear ->
    step auto_refresh s (move s i Done (lock s) false)
| step_job_start s :
    auto_refresh = true -> sched s = Waiting ->
    step auto_refresh s
      {| lock := lock s; flag := flag s; workers := workers s;
         sched := Job |}
| step_job_end s :
    sched s = Job ->
    step auto_refresh s
      {| lock := lock s; flag := flag s; workers := workers s;
         sched := Waiting |}.

Inductive reachable (auto_refresh : bool) : state -> Prop :=
| reach_init : reachable auto_refresh init
| reach_step s s' :
    reachable auto_refresh s -> step auto_refresh s s' ->
    reachable auto_refresh s'.

Definition count (p : worker -> bool) (ws : list worker) : nat :=
  length (List.filter p ws).

Definition running (w : worker) : bool :=
  match w with
  | Run => true
  | _ => false
  end.

(** The workers inside the [with] block, those between setting the flag
    and clearing it, and those about to set it. *)
Definition holds_lock (w : worker) : bool :=
  match w with
  | Test | SetFlag | Leave _ => true
  | _ => false
  end.

Definition owns_flag (w : worker) : bool :=
  match w with
  | Leave false | Run | Clear => true
  | _ => false
  end.

Definition setting (w : worker) : bool :=
  match w with
  | SetFlag => true
  | _ => false
  end.

(** The number of executions of [update_menus] in progress. *)
Definition in_flight (s : state) : nat :=
  count running (workers s)
  + match sched s with Job => 1 | Waiting => 0 end.

(** What holds of the lock and the flag in every reachable state. *)
Definition guarded (s : state) : Prop :=
  count holds_lock (workers s) = (if lock s then 1 else 0)
  /\ count owns_flag (workers s) = (if flag s then 1 else 0)
  /\ (flag s = true -> count setting (workers s) = 0).

End Refresh.

(** ** Menu endpoint ([server.py], lines 324-342) *)

Module Menu.

Import Legacy.

(** What an access to [MENU_FILE] finds: no file, a file that cannot be
    opened or is not JSON, or the document. *)
Inductive file :=
| Missing
| Broken
| Content (data : value).

(** What leaves the handler when it does not answer: the
    [FileNotFoundError] of an [open] inside the [except] clause, the error
    of a file that cannot be read, or an exception of the normalization. *)
Inductive failure :=
| FileNotFoundError
| ReadError
| Exn (e : exn).

Inductive answer :=
| Served (body : list value)
| Unavailable
| Escaped (f : failure).

Section Defs.
Context {U : UnicodeDB}.
Variable py_str_other : value -> str.
(** [clock i] is [datetime.now().isoformat()] while entry [i] of the
    document is normalized. *)
Variable clock : nat -> str.
(** The file as the successive accesses of the handler find it. *)
Variable disk : nat -> file.

Definition is_meals (x : value) : bool :=
  match x with
  | VStr s => str_eqb s (u "meals")
  | _ => false
  end.

(** [_normalize_legacy_hall(hall)] on whatever the document holds: the
    test ['meals' in hall], then [hall.get]. *)
Definition normalize_entry (now_iso : str) (hall : value) : result value :=
  match hall with
  | VDict d =>
      d' ← _normalize_legacy_hall py_str_other now_iso d; Ok (VDict d')
  | VStr s => if contains (u "meals") s then Ok hall else Raise AttributeError
  | VList l => if existsb is_meals l then Ok hall else Raise AttributeError
  | _ => Raise TypeError
  end.

(** [[_normalize_legacy_hall(hall) for hall in data]], from entry [i]. *)
Fixpoint normalize_all (i : nat) (halls : list value) : result (list value) :=
  match halls with
  | [] => Ok []
  | hall :: rest =>
      h ← normalize_entry (clock i) hall;
      hs ← normalize_all (S i) rest;
      Ok (h :: hs)
  end.

(** The two lines after [json.load]. *)
Definition respond (data : value) : answer :=
  match (halls ← iterate data; normalize_all 0 halls) with
  | Ok body => Served body
  | Raise e => Escaped (Exn e)
  end.

(** The loop of the [except] clause with [rounds] rounds left, the next
    access being access [i]: the answer and the seconds slept. *)
Fixpoint wait (rounds i slept : nat) : answer * nat :=
  match rounds with
  | O => (Unavailable, slept)
  | S rounds' =>
      match disk i with
      | Missing => wait rounds' (S i) (S slept)
      | _ =>
          (match disk (S i) with
           | Missing => Escaped FileNotFoundError
           | Broken => Escaped ReadError
           | Content data => respond data
           end, slept)
      end
  end.

(** The answer made from what access [i] finds, when it is an [open]. *)
Definition opened (i : nat) : answer :=
  match disk i with
  | Missing => Escaped FileNotFoundError
  | Broken => Escaped ReadError
  | Content data => respond data
  end.

(** The answer, whether [trigger_refresh_async] was called, and the
    seconds slept. *)
Definition get_dining_halls : answer * bool * nat :=
  match disk 0 with
  | Content data => (respond data, false, 0)
  | Broken => (Escaped ReadError, false, 0)
  | Missing => let '(a, slept) := wait 15 1 0 in (a, true, slept)
  end.

End Defs.

(** A file that is there from the access [n] on. *)
Definition appears (n : nat) (data : value) (i : nat) : file :=
  if (i <? n)%nat then Missing else Content data.

End Menu.

(** ** Further vocabulary *)

Module Words.

(** The spellings of the suffix that the parser takes for PM. *)
Definition pm_spellings : list str := [u "PM"; u "Pm"; u "pM"; u "pm"].

Definition is_pm_spelling (ampm : str) : bool :=
  existsb (str_eqb ampm) pm_spellings.

Definition ascii (s : str) : Prop := forallb is_ascii s = true.

(** A string that is empty or starts with a character that is not white
    space. *)
Definition head_ok (s : str) : Prop :=
  match s with
  | [] => True
  | c :: _ => isspace c = false
  end.

(** What the normalization does to one ASCII character. *)
Definition fold_char (c : N) : N := underscore (ascii_lower c).

(** A hall that bears the name [n], and a hall that belongs to the
    university [uv] of a request: any hall when [uv] is empty, a Columbia or
    Barnard hall when [uv] is Columbia, a hall of that very source tag
    otherwise. *)
Definition named_as (n : str) (hall : Hall) : bool :=
  match name hall with
  | Some m => str_eqb m n
  | None => false
  end.

Definition belongs {U : UnicodeDB} (uv : str) (hall : Hall) : bool :=
  match uv with
  | [] => true
  | _ =>
      if str_eqb (lower uv) (u "columbia")
      then str_eqb (source_tag hall) (u "columbia")
           || str_eqb (source_tag hall) (u "barnard")
      else str_eqb (source_tag hall) (lower uv)
  end.

Definition answers {U : UnicodeDB} (n uv : str) (hall : Hall) : bool :=
  named_as n hall && belongs uv hall.





(** An object that is true and is not a string. *)
Definition odd_university (v : value) : Prop :=
  truthy v = true /\ forall s, v <> VStr s.

(** The raw items of a legacy document. *)
Definition raw_items_of (hall : list (str * value)) : value :=
  py_or (get hall (u "food_items_with_nutrition") VNone)
    (py_or (get hall (u "food_items") VNone) (VList [])).

(** A raw item the normalizer can read: a string or an object; its name;
    and whether it is kept. *)
Definition item_shape (item : value) : bool :=
  match item with
  | VStr _ | VDict _ => true
  | _ => false
  end.

Definition raw_name (item : value) : value :=
  match item with
  | VDict d => get d (u "name") (VStr [])
  | other => other
  end.

Definition named_item (item : value) : bool := truthy (raw_name item).

(** The items of the one station of the one meal of a normalized
    document, and the name of an item. *)
Definition menu_items (hall : list (str * value)) : option (list value) :=
  match dict_lookup hall (u "meals") with
  | Some (VList [VDict meal]) =>
      match dict_lookup meal (u "stations") with
      | Some (VList [VDict station]) =>
          match dict_lookup station (u "items") with
          | Some (VList items) => Some items
          | _ => None
          end
      | _ => None
      end
  | _ => None
  end.

Definition item_name (item : value) : value :=
  match item with
  | VDict d => get d (u "name") VNone
  | _ => VNone
  end.

(** An entry of the canonical schema. *)
Definition canonical (hall : value) : bool :=
  match hall with
  | VDict d => has_key d (u "meals")
  | _ => false
  end.

(** An entry that is not an object, or has the key ["meals"]. *)
Definition with_meals (hall : value) : bool :=
  match hall with
  | VDict d => has_key d (u "meals")
  | _ => true
  end.

(** A scraper that raised or returned nothing. *)
Definition nothing (scraped : option (list Hall)) : Prop :=
  default [] scraped = [].



(** The state with one more worker, the lock and the flag being as
    given. *)
Definition with_worker (s : Refresh.state) (l f : bool) (w : Refresh.worker)
  : Refresh.state :=
  {| Refresh.lock := l; Refresh.flag := f;
     Refresh.workers := Refresh.workers s ++ [w];
     Refresh.sched := Refresh.sched s |}.


End Words.

(** * Properties *)

(** ** Facts about the string built-ins *)

Module PyFacts.

Lemma str_eqb_eq (a b : str) : str_eqb a b = true <-> a = b.
Proof.
  revert b; induction a as [|x a IH]; intros [|y b]; simpl; try easy.
  rewrite andb_true_iff, N.eqb_eq, IH. split.
  - intros [-> ->]; reflexivity.
  - intros H; injection H; auto.
Qed.

Lemma str_eqb_refl (a : str) : str_eqb a a = true.
Proof. apply str_eqb_eq; reflexivity. Qed.

Lemma str_eqb_neq (a b : str) : str_eqb a b = false <-> a <> b.
Proof.
  rewrite <- str_eqb_eq. destruct (str_eqb a b); split; congruence.
Qed.

Section Strip.

Lemma lstrip_spaces (pre s : str) :
  spaces pre -> lstrip (pre ++ s) = lstrip s.
Proof.
  induction 1 as [|c pre Hc _ IH]; simpl; [reflexivity|].
  rewrite Hc; exact IH.
Qed.

Lemma lstrip_split (s : str) :
  exists pre, spaces pre /\ s = pre ++ lstrip s.
Proof.
  induction s as [|c s [pre [Hp Hs]]]; simpl.
  - exists []; split; [constructor | reflexivity].
  - destruct (isspace c) eqn:Hc.
    + exists (c :: pre); split; [constructor; assumption|].
      simpl; congruence.
    + exists []; split; [constructor | reflexivity].
Qed.

Lemma spaces_rev (s : str) : spaces s -> spaces (rev s).
Proof. unfold spaces. intros H. apply Forall_rev. exact H. Qed.

Lemma rstrip_split (s : str) :
  exists post, spaces post /\ s = rstrip s ++ post.
Proof.
  destruct (lstrip_split (rev s)) as [pre [Hp Hs]].
  exists (rev pre); split; [apply spaces_rev; exact Hp|].
  unfold rstrip. rewrite <- rev_app_distr, <- Hs, rev_involutive.
  reflexivity.
Qed.

Lemma in_lstrip (c : N) (s : str) : In c (lstrip s) -> In c s.
Proof.
  destruct (lstrip_split s) as [pre [_ Hs]]. intros H.
  rewrite Hs. apply in_or_app; right; exact H.
Qed.

Lemma in_rstrip (c : N) (s : str) : In c (rstrip s) -> In c s.
Proof.
  destruct (rstrip_split s) as [post [_ Hs]]. intros H.
  rewrite Hs. apply in_or_app; left; exact H.
Qed.

Lemma in_strip (c : N) (s : str) : In c (strip s) -> In c s.
Proof. intros H. apply in_lstrip, in_rstrip, H. Qed.

End Strip.

Section Split.

Lemma split_go_spaces (post : str) : spaces post -> split_go [] post = [].
Proof.
  induction 1 as [|c post Hc _ IH]; simpl; [reflexivity|].
  rewrite Hc; exact IH.
Qed.

Lemma split_go_trailing (acc s post : str) :
  spaces post -> split_go acc (s ++ post) = split_go acc s.
Proof.
  intros Hp. revert acc; induction s as [|c s IH]; intros acc; simpl.
  - destruct Hp as [|c post Hc Hp]; simpl; [reflexivity|].
    rewrite Hc, (split_go_spaces post Hp). destruct acc; reflexivity.
  - destruct (isspace c); [destruct acc|]; rewrite ?IH; reflexivity.
Qed.

Lemma split_go_leading (pre s : str) :
  spaces pre -> split_go [] (pre ++ s) = split_go [] s.
Proof.
  induction 1 as [|c pre Hc _ IH]; simpl; [reflexivity|].
  rewrite Hc; exact IH.
Qed.

(** [split()] does not see what [strip()] removes. *)
Lemma split_ws_strip (s : str) : split_ws (strip s) = split_ws s.
Proof.
  unfold split_ws, strip.
  destruct (lstrip_split s) as [pre [Hpre Hs]].
  destruct (rstrip_split (lstrip s)) as [post [Hpost Hl]].
  rewrite Hs at 2. rewrite (split_go_leading _ _ Hpre).
  rewrite Hl at 2. rewrite (split_go_trailing _ _ _ Hpost). reflexivity.
Qed.

Lemma split_ws_pad (pre s post : str) :
  spaces pre -> spaces post -> split_ws (pre ++ s ++ post) = split_ws s.
Proof.
  intros Hpre Hpost. unfold split_ws.
  rewrite (split_go_leading _ _ Hpre). apply split_go_trailing, Hpost.
Qed.

(** A token of the split is made of characters of the string. *)
Lemma split_go_chars (c : N) (s acc tok : str) :
  In tok (split_go acc s) -> In c tok -> In c acc \/ In c s.
Proof.
  revert acc; induction s as [|x s IH]; intros acc.
  - destruct acc as [|a acc]; [intros []|].
    intros [<-|[]] Hc. left. rewrite <- in_rev in Hc. exact Hc.
  - cbn [split_go]. destruct (isspace x).
    + destruct acc as [|a acc].
      * intros Ht Hc. destruct (IH [] Ht Hc) as [[]|H]. right; right; exact H.
      * intros [<-|Ht] Hc.
        -- left. rewrite <- in_rev in Hc; exact Hc.
        -- destruct (IH [] Ht Hc) as [[]|H]. right; right; exact H.
    + intros Ht Hc. destruct (IH (x :: acc) Ht Hc) as [[<-|H]|H].
      * right; left; reflexivity.
      * left; exact H.
      * right; right; exact H.
Qed.

Lemma split_ws_chars (c : N) (s tok : str) :
  In tok (split_ws s) -> In c tok -> In c s.
Proof.
  intros Ht Hc. destruct (split_go_chars c s [] tok Ht Hc) as [[]|H]; exact H.
Qed.

End Split.

Section Search.

Lemma startswith_app (p s : str) : startswith (p ++ s) p = true.
Proof.
  induction p as [|x p IH]; simpl; [reflexivity|].
  rewrite N.eqb_refl; exact IH.
Qed.

Lemma startswith_inv (s p : str) :
  startswith s p = true -> exists r, s = p ++ r.
Proof.
  revert s; induction p as [|x p IH]; intros s; simpl.
  - exists s; reflexivity.
  - destruct s as [|y s]; [discriminate|].
    rewrite andb_true_iff, N.eqb_eq. intros [-> H].
    destruct (IH s H) as [r ->]. exists r; reflexivity.
Qed.

Lemma contains_char (c : N) (s : str) : contains [c] s = true <-> In c s.
Proof.
  induction s as [|x s IH]; simpl; [easy|].
  rewrite orb_true_iff, IH, andb_true_r, N.eqb_eq.
  split; (intros [H|H]; [left; symmetry; exact H | right; exact H]).
Qed.

Lemma contains_app (p a b : str) : contains p (a ++ p ++ b) = true.
Proof.
  induction a as [|x a IH]; simpl.
  - destruct p as [|y p]; simpl.
    + destruct b; reflexivity.
    + rewrite N.eqb_refl, startswith_app. reflexivity.
  - rewrite IH. apply orb_true_r.
Qed.

(** Splitting at a character that the left part does not have. *)
Lemma split_first_char (c : N) (a b : str) :
  ~ In c a -> split_first [c] (a ++ c :: b) = Some (a, b).
Proof.
  induction a as [|x a IH]; simpl; intros Hn.
  - rewrite N.eqb_refl; reflexivity.
  - destruct (N.eqb_spec c x) as [->|Hx]; [tauto|].
    simpl. rewrite IH by tauto. reflexivity.
Qed.

Lemma split_first_found (sep s : str) :
  contains sep s = true -> exists a b, split_first sep s = Some (a, b).
Proof.
  induction s as [|x s IH]; simpl.
  - intros ->; eauto.
  - destruct (startswith (x :: s) sep); [eauto|]. simpl.
    intros H. destruct (IH H) as [a [b ->]]. eauto.
Qed.

End Search.

Section Replace.

Lemma contains_inv (p s : str) :
  contains p s = true -> exists a b, s = a ++ p ++ b.
Proof.
  induction s as [|x s IH]; simpl.
  - destruct p; [|discriminate]. intros _. exists [], []; reflexivity.
  - rewrite orb_true_iff. intros [H|H].
    + destruct (startswith_inv _ _ H) as [r Hr]. exists [], r; exact Hr.
    + destruct (IH H) as [a [b ->]]. exists (x :: a), b; reflexivity.
Qed.

(** A pattern does not occur in a string that lacks one of its
    characters. *)
Lemma contains_absent_char (c : N) (p s : str) :
  In c p -> ~ In c s -> contains p s = false.
Proof.
  intros Hp Hs. destruct (contains p s) eqn:E; [|reflexivity].
  destruct (contains_inv _ _ E) as [a [b ->]]. exfalso. apply Hs.
  apply in_or_app; right. apply in_or_app; left. exact Hp.
Qed.

Lemma replace_go_absent (old new s : str) :
  contains old s = false -> replace_go old new 0 s = s.
Proof.
  induction s as [|x s IH]; simpl; [reflexivity|].
  rewrite orb_false_iff. intros [-> H]. rewrite (IH H). reflexivity.
Qed.

Lemma replace_absent (old new s : str) :
  old <> [] -> contains old s = false -> replace old new s = s.
Proof.
  intros Hne H. destruct old; [congruence|]. apply replace_go_absent, H.
Qed.

Lemma replace_go_skip (old new p b : str) :
  replace_go old new (length p) (p ++ b) = replace_go old new 0 b.
Proof. induction p as [|x p IH]; simpl; [destruct b|]; auto. Qed.

Lemma startswith_second (x c z : N) (rest a b : str) :
  x <> c -> ~ In c a ->
  startswith (z :: a ++ x :: c :: rest ++ b) (x :: c :: rest) = false.
Proof.
  intros Hx Ha. cbn [startswith]. destruct (N.eqb x z); [|reflexivity].
  cbn [andb]. destruct a as [|w a]; cbn [app].
  - destruct (N.eqb_spec c x); [congruence | reflexivity].
  - destruct (N.eqb_spec c w) as [->|]; [|reflexivity].
    destruct Ha; left; reflexivity.
Qed.

Lemma not_in_tail (c z : N) (a : str) : ~ In c (z :: a) -> ~ In c a.
Proof. intros H Hin. apply H. right. exact Hin. Qed.

(** The first occurrence of a pattern whose second character does not
    occur before it. *)
Lemma replace_go_first (x c : N) (rest new a b : str) :
  x <> c -> ~ In c a ->
  replace_go (x :: c :: rest) new 0 (a ++ x :: c :: rest ++ b)
  = a ++ new ++ replace_go (x :: c :: rest) new 0 b.
Proof.
  intros Hx. induction a as [|z a IH]; intros Ha.
  - cbn [app replace_go].
    rewrite (startswith_app (x :: c :: rest) b
             : startswith (x :: c :: rest ++ b) _ = true).
    f_equal. cbn [length Nat.sub].
    apply (replace_go_skip (x :: c :: rest) new (c :: rest) b).
  - cbn [app replace_go].
    rewrite (startswith_second x c z rest a b Hx (not_in_tail _ _ _ Ha)).
    f_equal. apply IH, (not_in_tail _ _ _ Ha).
Qed.

Lemma split_first_mid (x c : N) (rest a b : str) :
  x <> c -> ~ In c a ->
  split_first (x :: c :: rest) (a ++ x :: c :: rest ++ b) = Some (a, b).
Proof.
  intros Hx. induction a as [|z a IH]; intros Ha.
  - cbn [app split_first].
    rewrite (startswith_app (x :: c :: rest) b
             : startswith (x :: c :: rest ++ b) _ = true).
    f_equal. f_equal.
    apply (drop_app_length (x :: c :: rest) b).
  - cbn [app split_first].
    rewrite (startswith_second x c z rest a b Hx (not_in_tail _ _ _ Ha)).
    rewrite (IH (not_in_tail _ _ _ Ha)). reflexivity.
Qed.

(** Replacing a character works character by character. *)
Lemma replace_char (c : N) (new s : str) :
  replace [c] new s
  = flat_map (fun x => if (c =? x)%N then new else [x]) s.
Proof.
  unfold replace. induction s as [|x s IH]; cbn; [reflexivity|].
  rewrite andb_true_r. destruct (c =? x)%N; cbn; rewrite IH; reflexivity.
Qed.

Lemma replace_char_app (c : N) (new a b : str) :
  replace [c] new (a ++ b) = replace [c] new a ++ replace [c] new b.
Proof. rewrite !replace_char. apply flat_map_app. Qed.

Lemma replace_char_absent (c : N) (new s : str) :
  ~ In c s -> replace [c] new s = s.
Proof.
  intros H. apply replace_absent; [discriminate|].
  destruct (contains [c] s) eqn:E; [|reflexivity].
  apply contains_char in E. contradiction.
Qed.

End Replace.

End PyFacts.

(** ** The time parser *)

Module TimeParserFacts.

Import PyFacts.
Local Open Scope Z_scope.

Ltac digit_bounds H :=
  unfold is_digit in H; apply andb_true_iff in H;
  let H1 := fresh in let H2 := fresh in
  destruct H as [H1 H2]; apply N.leb_le in H1; apply N.leb_le in H2.

Ltac ncases :=
  repeat match goal with
    | |- context [N.leb ?a ?b] => destruct (N.leb_spec a b)
    | |- context [N.ltb ?a ?b] => destruct (N.ltb_spec a b)
    | |- context [N.eqb ?a ?b] => destruct (N.eqb_spec a b)
    end; simpl; try reflexivity; try lia.

Section Parsing.
Context {U : UnicodeDB}.

Lemma digit_not_space (c : N) : is_digit c = true -> c_isspace c = false.
Proof. intros H. digit_bounds H. unfold c_isspace. ncases. Qed.

Lemma to_ascii_digits (d : str) :
  Forall (fun c => is_digit c = true) d -> to_ascii d = Some d.
Proof.
  induction 1 as [|c d Hc _ IH]; simpl; [reflexivity|].
  rewrite IH. unfold to_ascii_char. digit_bounds Hc.
  destruct (N.ltb_spec c 127); [reflexivity | lia].
Qed.

Lemma digits_go_all (d : str) (acc : Z) :
  Forall (fun c => is_digit c = true) d ->
  digits_go false acc d
  = Some (fold_left (fun a c => a * 10 + Z.of_N (c - 48)) d acc, []).
Proof.
  intros H; revert acc; induction H as [|c d Hc _ IH]; intros acc; simpl.
  - reflexivity.
  - rewrite Hc. apply IH.
Qed.

Lemma filter_digits (d : str) :
  Forall (fun c => is_digit c = true) d -> List.filter is_digit d = d.
Proof.
  induction 1 as [|c d Hc _ IH]; cbn [List.filter]; [reflexivity|].
  rewrite Hc, IH. reflexivity.
Qed.

(** [int] on a string of ASCII digits: the number it denotes when the
    digits are no more than the limit, and a refusal otherwise. *)
Lemma py_int_run (d : str) :
  digits d ->
  py_int d = if (int_max_str_digits <? length d)%nat then None
             else Some (digits_value d).
Proof.
  intros [Hne Hd]. unfold py_int. rewrite (to_ascii_digits d Hd).
  destruct d as [|c d]; [congruence|]. clear Hne.
  pose proof (Forall_inv Hd) as Hc. cbv beta in Hc.
  unfold int_ascii. cbn [c_lstrip]. rewrite (digit_not_space c Hc).
  assert (Hs : (c =? 43)%N = false /\ (c =? 45)%N = false).
  { pose proof Hc as Hc'. digit_bounds Hc'. split; apply N.eqb_neq; lia. }
  destruct Hs as [-> ->]. unfold int_unsigned. rewrite Hc.
  rewrite (digits_go_all (c :: d) 0 Hd), (filter_digits (c :: d) Hd).
  reflexivity.
Qed.

Lemma py_int_digits (d : str) :
  digits d -> (length d <= int_max_str_digits)%nat ->
  py_int d = Some (digits_value d).
Proof.
  intros Hd Hl. rewrite (py_int_run d Hd).
  destruct (Nat.ltb_spec int_max_str_digits (length d)); [lia | reflexivity].
Qed.

Lemma py_int_long (d : str) :
  digits d -> (int_max_str_digits < length d)%nat -> py_int d = None.
Proof.
  intros Hd Hl. rewrite (py_int_run d Hd).
  destruct (Nat.ltb_spec int_max_str_digits (length d)); [reflexivity | lia].
Qed.

Lemma parse_eq (s : str) :
  _parse_time_to_minutes s = minutes_of_parts (split_ws s).
Proof.
  unfold _parse_time_to_minutes. rewrite split_ws_strip.
  destruct s; reflexivity.
Qed.

(** White space around a time is ignored. *)
Lemma parse_pad (pre s post : str) :
  spaces pre -> spaces post ->
  _parse_time_to_minutes (pre ++ s ++ post) = _parse_time_to_minutes s.
Proof.
  intros Hpre Hpost. rewrite !parse_eq, split_ws_pad by assumption.
  reflexivity.
Qed.

Lemma colon_not_digit (d : str) :
  Forall (fun c => is_digit c = true) d -> ~ In 58%N d.
Proof.
  intros H Hin. rewrite List.Forall_forall in H. specialize (H _ Hin).
  discriminate H.
Qed.

(** The two numbers of a first part that is digits, a colon and
    digits. *)
Lemma parts_numbers (d1 d2 ap : str) :
  digits d1 -> digits d2 ->
  minutes_of_parts [d1 ++ u ":" ++ d2; ap]
  = match py_int d1, py_int d2 with
    | Some hour, Some minute =>
        Some (clock_hour (str_eqb (upper ap) (u "PM")) hour * 60 + minute)
    | _, _ => None
    end.
Proof.
  intros H1 H2. unfold minutes_of_parts.
  replace (contains (u ":") (d1 ++ u ":" ++ d2)) with true
    by (symmetry; apply contains_app).
  cbn [negb]. unfold split1. change (u ":") with [58%N].
  change ([58%N] ++ d2)%list with (58%N :: d2).
  rewrite (split_first_char 58 d1 d2) by (apply colon_not_digit, H1).
  destruct (py_int d1) as [hour|]; [|reflexivity].
  destruct (py_int d2) as [minute|]; [|reflexivity].
  unfold clock_hour.
  destruct (str_eqb (upper ap) (u "PM")); cbn [andb negb];
    destruct (Z.eqb_spec hour 12) as [E|E]; cbn [negb];
    rewrite ?E; reflexivity.
Qed.

Lemma parts_digits (d1 d2 ap : str) :
  digits d1 -> digits d2 ->
  (length d1 <= int_max_str_digits)%nat ->
  (length d2 <= int_max_str_digits)%nat ->
  minutes_of_parts [d1 ++ u ":" ++ d2; ap]
  = Some (clock_hour (str_eqb (upper ap) (u "PM")) (digits_value d1) * 60
          + digits_value d2).
Proof.
  intros H1 H2 L1 L2. rewrite (parts_numbers d1 d2 ap H1 H2).
  rewrite (py_int_digits d1 H1 L1), (py_int_digits d2 H2 L2). reflexivity.
Qed.

Lemma parts_long (d1 d2 ap : str) :
  digits d1 -> digits d2 ->
  (int_max_str_digits < length d1 \/ int_max_str_digits < length d2)%nat ->
  minutes_of_parts [d1 ++ u ":" ++ d2; ap] = None.
Proof.
  intros H1 H2 L. rewrite (parts_numbers d1 d2 ap H1 H2).
  destruct L as [L|L].
  - rewrite (py_int_long d1 H1 L). reflexivity.
  - rewrite (py_int_long d2 H2 L). destruct (py_int d1); reflexivity.
Qed.

End Parsing.

Lemma in_zrange (lo n : nat) (z : Z) :
  Z.of_nat lo <= z < Z.of_nat lo + Z.of_nat n -> In z (zrange lo n).
Proof.
  intros H. unfold zrange. apply in_map_iff. exists (Z.to_nat z). split.
  - lia.
  - apply in_seq. lia.
Qed.

(** Every well-formed time text is read as its minute of the day. *)
Lemma table_checked {U : UnicodeDB} :
  forallb (fun h => forallb (fun m => table_ok h m false && table_ok h m true)
                      (zrange 0 60)) (zrange 1 12) = true.
Proof. vm_compute. reflexivity. Qed.

Lemma table_entry {U : UnicodeDB} (h m : Z) (pm : bool) :
  1 <= h <= 12 -> 0 <= m <= 59 -> table_ok h m pm = true.
Proof.
  intros Hh Hm. pose proof table_checked as T.
  rewrite forallb_forall in T. specialize (T h (in_zrange 1 12 h ltac:(lia))).
  rewrite forallb_forall in T. specialize (T m (in_zrange 0 60 m ltac:(lia))).
  apply andb_true_iff in T. destruct T as [T0 T1].
  destruct pm; assumption.
Qed.

Lemma parse_time_text {U : UnicodeDB} (h m : Z) (pm : bool) :
  1 <= h <= 12 -> 0 <= m <= 59 ->
  _parse_time_to_minutes (time_text h m pm)
  = Some (minutes_since_midnight h m pm).
Proof.
  intros Hh Hm. pose proof (table_entry h m pm Hh Hm) as T.
  unfold table_ok in T.
  destruct (_parse_time_to_minutes (time_text h m pm)); [|discriminate].
  apply andb_true_iff in T. destruct T as [T _].
  apply Z.eqb_eq in T. congruence.
Qed.

Lemma plain_time_text (h m : Z) (pm : bool) :
  1 <= h <= 12 -> 0 <= m <= 59 -> plain (time_text h m pm).
Proof.
  intros Hh Hm. pose proof (table_entry (U := ascii_db) h m pm Hh Hm) as T.
  unfold table_ok in T.
  destruct (_parse_time_to_minutes (time_text h m pm)); [|discriminate].
  apply andb_true_iff in T. destruct T as [_ T]. exact T.
Qed.

Lemma no_colon_parts {U : UnicodeDB} (parts : list str) :
  (forall tok, In tok parts -> ~ In 58%N tok) ->
  minutes_of_parts parts = None.
Proof.
  intros H. destruct parts as [|tp [|ap [|x rest]]]; try reflexivity.
  unfold minutes_of_parts.
  destruct (contains (u ":") tp) eqn:Hc; [|reflexivity].
  change (u ":") with [58%N] in Hc. apply contains_char in Hc.
  destruct (H tp (or_introl eq_refl) Hc).
Qed.

(** [C2] Every valid time string ["H:MM AM"] or ["H:MM PM"] (hour from 1
    to 12 without a leading zero, minute on two digits), with any white
    space around it, is read as its minute of the day; ["12:00 AM"] gives
    0, ["12:00 PM"] gives 720 and ["11:59 PM"] gives 1439. The parser
    answers [None] when the string has no colon, when the hour or the
    minute is not a number for [int], and when the string does not split
    into exactly two parts. *)
Theorem parse_time_of_day_spec {U : UnicodeDB} :
  (forall pre post h m pm,
      spaces pre -> spaces post -> 1 <= h <= 12 -> 0 <= m <= 59 ->
      _parse_time_to_minutes (pre ++ time_text h m pm ++ post)
      = Some (minutes_since_midnight h m pm))
  /\ _parse_time_to_minutes (u "12:00 AM") = Some 0
  /\ _parse_time_to_minutes (u "12:00 PM") = Some 720
  /\ _parse_time_to_minutes (u "11:59 PM") = Some 1439
  /\ (forall s, ~ In 58%N s -> _parse_time_to_minutes s = None)
  /\ (forall s time_part ampm hour_str minute_str,
        split_ws s = [time_part; ampm] ->
        split1 (u ":") time_part = [hour_str; minute_str] ->
        py_int hour_str = None \/ py_int minute_str = None ->
        _parse_time_to_minutes s = None)
  /\ (forall s, length (split_ws s) <> 2%nat ->
        _parse_time_to_minutes s = None).
Proof.
  split; [|split; [|split; [|split; [|split; [|split]]]]].
  - intros pre post h m pm Hpre Hpost Hh Hm.
    rewrite parse_pad by assumption. apply parse_time_text; assumption.
  - vm_compute; reflexivity.
  - vm_compute; reflexivity.
  - vm_compute; reflexivity.
  - intros s Hs. rewrite parse_eq. apply no_colon_parts.
    intros tok Ht Hc. apply Hs. apply (split_ws_chars 58 s tok Ht Hc).
  - intros s tp ap hs ms Hsplit Hcolon Hint.
    rewrite parse_eq, Hsplit. unfold minutes_of_parts.
    destruct (contains (u ":") tp); [|reflexivity]. cbn [negb].
    rewrite Hcolon. destruct Hint as [-> | ->]; [reflexivity|].
    destruct (py_int hs); reflexivity.
  - intros s Hlen. rewrite parse_eq.
    destruct (split_ws s) as [|tp [|ap [|x rest]]]; try reflexivity.
    simpl in Hlen. congruence.
Qed.

Lemma parse_time_of_day_witness :
  _parse_time_to_minutes (U := ascii_db) (u "  " ++ time_text 9 5 true ++ u " ")
  = Some 1265
  /\ _parse_time_to_minutes (U := ascii_db) (u "9.05 PM") = None
  /\ _parse_time_to_minutes (U := ascii_db) (u "9:o5 PM") = None
  /\ _parse_time_to_minutes (U := ascii_db) (u "9:05PM") = None.
Proof.
  pose proof (parse_time_of_day_spec (U := ascii_db))
    as [Hv [_ [_ [_ [Hc [Hn Hp]]]]]].
  split; [|split; [|split]].
  - apply Hv; [repeat constructor | repeat constructor | lia | lia].
  - apply Hc. vm_compute. intuition discriminate.
  - apply (Hn _ (u "9:o5") (u "PM") (u "9") (u "o5"));
      [reflexivity | reflexivity | right; reflexivity].
  - apply Hp. vm_compute. discriminate.
Defined.

(** [C10] Whenever the string splits into two parts of which the first is
    digits, a colon and digits, each number being written with no more
    digits than [int] accepts (4300), the parser answers a number, with no
    check of the hour, the minute or the suffix: the suffix counts as PM
    when its upper case is ["PM"] and as AM otherwise, so that
    ["13:99 AM"] gives 879 and ["25:00 PM"] gives 2220, past the last
    minute of a day. When the hour or the minute has more digits than
    that, [int] raises [ValueError] and the parser answers [None]. *)
Theorem parse_time_unchecked {U : UnicodeDB} :
  (forall s d1 d2 ampm,
      split_ws s = [d1 ++ u ":" ++ d2; ampm] -> digits d1 -> digits d2 ->
      (length d1 <= 4300)%nat -> (length d2 <= 4300)%nat ->
      _parse_time_to_minutes s
      = Some (clock_hour (str_eqb (upper ampm) (u "PM")) (digits_value d1)
              * 60 + digits_value d2))
  /\ (forall s d1 d2 ampm,
        split_ws s = [d1 ++ u ":" ++ d2; ampm] -> digits d1 -> digits d2 ->
        (4300 < length d1 \/ 4300 < length d2)%nat ->
        _parse_time_to_minutes s = None)
  /\ _parse_time_to_minutes (u "13:99 AM") = Some 879
  /\ _parse_time_to_minutes (u "25:00 PM") = Some 2220
  /\ _parse_time_to_minutes (u "13:99 o'clock") = Some 879
  /\ (exists s r, _parse_time_to_minutes s = Some r /\ 1440 <= r).
Proof.
  split; [|split; [|split; [|split; [|split]]]].
  - intros s d1 d2 ap Hs H1 H2 L1 L2. rewrite parse_eq, Hs.
    apply parts_digits; assumption.
  - intros s d1 d2 ap Hs H1 H2 L. rewrite parse_eq, Hs.
    apply parts_long; assumption.
  - vm_compute; reflexivity.
  - vm_compute; reflexivity.
  - vm_compute; reflexivity.
  - exists (u "25:00 PM"), 2220. split; [vm_compute; reflexivity | lia].
Qed.

Lemma parse_time_unchecked_witness :
  _parse_time_to_minutes (U := ascii_db) (u " 77:123   pm ") = Some 5463.
Proof.
  apply (proj1 (parse_time_unchecked (U := ascii_db)) _ (u "77") (u "123")
           (u "pm")).
  - reflexivity.
  - split; [discriminate | repeat constructor].
  - split; [discriminate | repeat constructor].
  - cbn. lia.
  - cbn. lia.
Defined.

(** A first part of the shape digits, colon, digits is not always read: an
    hour of 4301 digits makes [int] raise, and the parser answers
    [None]. *)
Lemma parse_time_digit_limit : ~ reads_every_shape (U := ascii_db).
Proof.
  intros H.
  apply (H (repeat 49%N 4301 ++ u ":00 AM") (repeat 49%N 4301) (u "00")
           (u "AM")).
  - vm_compute. reflexivity.
  - split; [discriminate|]. apply List.Forall_forall. intros c Hc.
    apply repeat_spec in Hc. subst c. reflexivity.
  - split; [discriminate | repeat constructor].
  - vm_compute. reflexivity.
Qed.

Section Search.

Lemma occurs_contains (p s : str) : contains p s = true <-> occurs p s.
Proof.
  split.
  - apply contains_inv.
  - intros [x [y ->]]. apply contains_app.
Qed.

Lemma not_occurs (p s : str) : contains p s = false -> ~ occurs p s.
Proof. intros H Ho. apply occurs_contains in Ho. congruence. Qed.

Lemma absent (p s : str) : ~ occurs p s -> contains p s = false.
Proof.
  intros H. destruct (contains p s) eqn:E; [|reflexivity].
  destruct H. apply occurs_contains, E.
Qed.

Lemma occurs_in (p s : str) (c : N) : occurs p s -> In c p -> In c s.
Proof.
  intros [x [y ->]] H. apply in_or_app; right. apply in_or_app; left. exact H.
Qed.

Lemma occurs_tail (p s : str) (c : N) : occurs p s -> occurs p (c :: s).
Proof. intros [x [y ->]]. exists (c :: x), y. reflexivity. Qed.

Lemma clear_before_tail (p : str) (z : N) (a r : str) :
  clear_before p (z :: a) r -> clear_before p a r.
Proof.
  intros H x y E Hy. apply (H (z :: x) y); [rewrite E; reflexivity | exact Hy].
Qed.

Lemma clear_before_head (p : str) (z : N) (a r : str) :
  clear_before p (z :: a) r -> startswith (z :: a ++ r) p = false.
Proof. intros H. apply (H [] (z :: a)); [reflexivity | discriminate]. Qed.

Lemma replace_go_prefix (old new a r : str) :
  clear_before old a r ->
  replace_go old new 0 (a ++ r) = a ++ replace_go old new 0 r.
Proof.
  induction a as [|z a IH]; intros H; [reflexivity|].
  cbn [app replace_go]. rewrite (clear_before_head _ _ _ _ H).
  f_equal. apply IH, (clear_before_tail _ _ _ _ H).
Qed.

Lemma replace_go_match (x : N) (old new b : str) :
  replace_go (x :: old) new 0 (x :: old ++ b)
  = new ++ replace_go (x :: old) new 0 b.
Proof.
  cbn [replace_go].
  rewrite (startswith_app (x :: old) b : startswith (x :: old ++ b) _ = true).
  f_equal. cbn [length Nat.sub]. rewrite Nat.sub_0_r.
  apply (replace_go_skip (x :: old) new old b).
Qed.

Lemma replace_go_step (old new : str) (c : N) (s : str) :
  startswith (c :: s) old = false ->
  replace_go old new 0 (c :: s) = c :: replace_go old new 0 s.
Proof. intros H. cbn [replace_go]. rewrite H. reflexivity. Qed.

Lemma split_first_prefix (x : N) (sep a b : str) :
  clear_before (x :: sep) a (x :: sep ++ b) ->
  split_first (x :: sep) (a ++ x :: sep ++ b) = Some (a, b).
Proof.
  induction a as [|z a IH]; intros H.
  - cbn [app split_first].
    rewrite (startswith_app (x :: sep) b
             : startswith (x :: sep ++ b) _ = true).
    f_equal. f_equal. apply (drop_app_length (x :: sep) b).
  - cbn [app split_first]. rewrite (clear_before_head _ _ _ _ H).
    rewrite (IH (clear_before_tail _ _ _ _ H)). reflexivity.
Qed.

End Search.

Section Ranges.
Context {U : UnicodeDB}.

Lemma parse_strip (s : str) :
  _parse_time_to_minutes (strip s) = _parse_time_to_minutes s.
Proof. rewrite !parse_eq, split_ws_strip. reflexivity. Qed.

Lemma plain_not_in (s : str) (c : N) :
  plain s -> plain_char c = false -> ~ In c s.
Proof.
  intros H Hc Hin. unfold plain in H. rewrite forallb_forall in H.
  specialize (H c Hin). congruence.
Qed.

(** Every plain text can stand on either side of a separator. *)
Lemma plain_left (s : str) : plain s -> left_side s.
Proof.
  intros H. repeat split.
  - apply (plain_not_in s _ H). reflexivity.
  - apply (plain_not_in s _ H). reflexivity.
  - intros Ho. apply (occurs_in _ _ 116%N) in Ho; [|cbn; tauto].
    apply in_app_or in Ho. destruct Ho as [Ho|[Ho|[]]]; [|discriminate Ho].
    apply (plain_not_in s 116 H); [reflexivity | exact Ho].
  - intros Ho. apply (occurs_in _ _ 45%N) in Ho; [|cbn; tauto].
    apply in_app_or in Ho. destruct Ho as [Ho|[Ho|[]]]; [|discriminate Ho].
    apply (plain_not_in s 45 H); [reflexivity | exact Ho].
Qed.

Lemma plain_right (s : str) : plain s -> right_side s.
Proof.
  intros H. repeat split.
  - apply (plain_not_in s _ H). reflexivity.
  - apply (plain_not_in s _ H). reflexivity.
  - intros Ho. apply (occurs_in _ _ 116%N) in Ho; [|cbn; tauto].
    destruct Ho as [Ho|Ho]; [discriminate Ho|].
    apply (plain_not_in s 116 H); [reflexivity | exact Ho].
Qed.

(** No [" to "] begins within a left side that a blank follows. *)
Lemma left_clear_to (a r : str) :
  ~ occurs (u " to ") (a ++ u " ") ->
  clear_before (u " to ") a (32%N :: r).
Proof.
  intros Hn x y -> Hy.
  destruct (startswith (y ++ 32%N :: r) (u " to ")) eqn:E; [|reflexivity].
  exfalso. apply startswith_inv in E. destruct E as [r' E].
  change (u " to ") with [32; 116; 111; 32]%N in *.
  destruct y as [|y0 [|y1 [|y2 [|y3 y']]]]; [congruence|..];
    cbn [app] in E; try discriminate E; injection E; intros; subst.
  - apply Hn. exists x, []. rewrite <- List.app_assoc. reflexivity.
  - apply Hn. exists x, (y' ++ [32%N]). rewrite <- !List.app_assoc.
    reflexivity.
Qed.

(** No [" - "] begins within a left side that a blank follows. *)
Lemma left_clear_hyphen (a r : str) :
  ~ occurs (u " - ") (a ++ u " ") ->
  clear_before (u " - ") a (32%N :: 45%N :: r).
Proof.
  intros Hn x y -> Hy.
  destruct (startswith (y ++ 32%N :: 45%N :: r) (u " - ")) eqn:E;
    [|reflexivity].
  exfalso. apply startswith_inv in E. destruct E as [r' E].
  change (u " - ") with [32; 45; 32]%N in *.
  destruct y as [|y0 [|y1 [|y2 y']]]; [congruence|..];
    cbn [app] in E; try discriminate E; injection E; intros; subst.
  - apply Hn. exists x, []. rewrite <- List.app_assoc. reflexivity.
  - apply Hn. exists x, (y' ++ [32%N]). rewrite <- !List.app_assoc.
    reflexivity.
Qed.

Lemma right_no_to (b : str) :
  ~ occurs (u " to ") (u " " ++ b) ->
  replace_go (u " to ") (u " - ") 0 (32%N :: b) = 32%N :: b
  /\ replace_go (u " to ") (u " - ") 0 b = b.
Proof.
  intros H. split; apply replace_go_absent, absent.
  - exact H.
  - intros Ho. apply H. apply (occurs_tail _ _ 32%N), Ho.
Qed.

(** The replacement of [" to "] in two sides joined by a separator. *)
Lemma replaced_to (sep a b : str) :
  In sep separators -> left_side a -> right_side b ->
  replace (u " to ") (u " - ") (a ++ sep ++ b)
  = a ++ (if str_eqb sep (u " to ") then u " - " else sep) ++ b.
Proof.
  intros Hsep (_ & _ & Ha & _) (_ & _ & Hb).
  destruct (right_no_to b Hb) as [Hb1 Hb0].
  change (replace (u " to ") (u " - ") (a ++ sep ++ b))
    with (replace_go (u " to ") (u " - ") 0 (a ++ sep ++ b)).
  destruct Hsep as [<-|[<-|[<-|[<-|[]]]]].
  - change (a ++ u " - " ++ b) with (a ++ 32%N :: 45%N :: 32%N :: b).
    rewrite (replace_go_prefix _ _ a _ (left_clear_to a _ Ha)).
    rewrite replace_go_step by reflexivity.
    rewrite (replace_go_step _ _ 45%N) by reflexivity.
    rewrite Hb1. reflexivity.
  - change (a ++ u " to " ++ b)
      with (a ++ 32%N :: [116; 111; 32]%N ++ b).
    rewrite (replace_go_prefix _ _ a _ (left_clear_to a _ Ha)).
    f_equal.
    etransitivity;
      [exact (replace_go_match 32%N [116; 111; 32]%N (u " - ") b)|].
    exact (f_equal (app (u " - ")) Hb0).
  - change (a ++ [32%N; en_dash; 32%N] ++ b)
      with (a ++ 32%N :: en_dash :: 32%N :: b).
    rewrite (replace_go_prefix _ _ a _ (left_clear_to a _ Ha)).
    rewrite replace_go_step by reflexivity.
    rewrite (replace_go_step _ _ en_dash) by reflexivity.
    rewrite Hb1. reflexivity.
  - change (a ++ [32%N; em_dash; 32%N] ++ b)
      with (a ++ 32%N :: em_dash :: 32%N :: b).
    rewrite (replace_go_prefix _ _ a _ (left_clear_to a _ Ha)).
    rewrite replace_go_step by reflexivity.
    rewrite (replace_go_step _ _ em_dash) by reflexivity.
    rewrite Hb1. reflexivity.
Qed.

Lemma normalized_separator (sep a b : str) :
  In sep separators -> left_side a -> right_side b ->
  normalize_separators (a ++ sep ++ b) = a ++ [32; 45; 32]%N ++ b.
Proof.
  intros Hsep Ha Hb. unfold normalize_separators.
  rewrite (replaced_to sep a b Hsep Ha Hb).
  destruct Ha as (Ha1 & Ha2 & _), Hb as (Hb1 & Hb2 & _).
  rewrite (replace_char_app en_dash), (replace_char_app en_dash _ _ b).
  rewrite (replace_char_absent en_dash _ a Ha1).
  rewrite (replace_char_absent en_dash _ b Hb1).
  assert (E : replace [en_dash] (u "-")
                (if str_eqb sep (u " to ") then u " - " else sep)
              = if str_eqb sep [32%N; em_dash; 32%N] then sep
                else [32; 45; 32]%N).
  { destruct Hsep as [<-|[<-|[<-|[<-|[]]]]]; reflexivity. }
  rewrite E.
  rewrite (replace_char_app em_dash), (replace_char_app em_dash _ _ b).
  rewrite (replace_char_absent em_dash _ a Ha2).
  rewrite (replace_char_absent em_dash _ b Hb2).
  f_equal. f_equal.
  destruct Hsep as [<-|[<-|[<-|[<-|[]]]]]; reflexivity.
Qed.

Lemma range_of_normalized (s s1 s2 : str) :
  s <> [] -> normalize_separators s = s1 ++ [32; 45; 32]%N ++ s2 ->
  ~ occurs (u " - ") (s1 ++ u " ") ->
  _parse_time_range s
  = match _parse_time_to_minutes s1, _parse_time_to_minutes s2 with
    | Some a, Some b => Some (a, b)
    | _, _ => None
    end.
Proof.
  intros Hne Hn Hh. unfold _parse_time_range.
  destruct s as [|c s]; [congruence|]. cbv zeta. rewrite Hn.
  change (u " - ") with [32; 45; 32]%N.
  rewrite contains_app. cbn [negb]. unfold split1.
  change (s1 ++ [32; 45; 32]%N ++ s2)
    with (s1 ++ 32%N :: [45; 32]%N ++ s2).
  rewrite (split_first_prefix 32 [45; 32]%N s1 s2)
    by (apply (left_clear_hyphen s1 (32%N :: s2) Hh)).
  cbn [map]. rewrite !parse_strip. reflexivity.
Qed.

(** Replacing a character by another one is a map. *)
Lemma replace_char_map (c d : N) (s : str) :
  replace [c] [d] s = map (fun x => if (c =? x)%N then d else x) s.
Proof.
  rewrite replace_char. induction s as [|x s IH]; [reflexivity|].
  cbn [flat_map map]. rewrite IH. destruct (c =? x)%N; reflexivity.
Qed.

(** Where the normalized string has [" - "], the string has a blank, a
    hyphen or a dash, and a blank. *)
Lemma hyphen_origin (s : str) :
  occurs (u " - ")
    (replace [em_dash] (u "-") (replace [en_dash] (u "-") s)) ->
  exists c, (c = 45%N \/ c = en_dash \/ c = em_dash)
            /\ occurs [32%N; c; 32%N] s.
Proof.
  change (u "-") with [45%N]. rewrite !replace_char_map, map_map.
  set (g := fun x : N => if (em_dash =? (if (en_dash =? x)%N then 45 else x))%N
                         then 45%N
                         else if (en_dash =? x)%N then 45%N else x).
  assert (F : forall c, g c = 32%N -> c = 32%N).
  { intros c. unfold g. destruct (N.eqb_spec en_dash c); [discriminate|].
    destruct (N.eqb_spec em_dash c); [discriminate | tauto]. }
  assert (G : forall c, g c = 45%N -> c = 45%N \/ c = en_dash \/ c = em_dash).
  { intros c. unfold g. destruct (N.eqb_spec en_dash c) as [<-|]; [tauto|].
    destruct (N.eqb_spec em_dash c) as [<-|]; tauto. }
  clearbody g. intros [x [y E]].
  apply map_eq_app in E. destruct E as [x0 [r [-> [_ E]]]].
  apply map_eq_app in E.
  destruct E as [m [y0 [-> [E _]]]].
  change (u " - ") with [32; 45; 32]%N in E.
  destruct m as [|c0 [|c1 [|c2 [|c3 m]]]]; try discriminate E.
  change (map g [c0; c1; c2]) with [g c0; g c1; g c2] in E.
  injection E as E0 E1 E2.
  apply F in E0, E2. subst c0 c2. exists c1. split; [exact (G c1 E1)|].
  exists x0, y0. reflexivity.
Qed.

Lemma range_absent (s : str) :
  (forall sep, In sep separators -> ~ occurs sep s) ->
  _parse_time_range s = None.
Proof.
  intros H. unfold _parse_time_range.
  destruct s as [|c s]; [reflexivity|]. cbv zeta.
  unfold normalize_separators.
  rewrite (replace_absent (u " to "))
    by (discriminate || (apply absent, H; cbn; tauto)).
  rewrite absent; [reflexivity|].
  intros Ho. apply hyphen_origin in Ho.
  destruct Ho as [d [[ -> | [ -> | -> ]] Ho]]; revert Ho; apply H; cbn; tauto.
Qed.

(** A blank, a dash, a blank, found in two texts that do not have the
    dash and are joined by it: the second text starts with a blank. *)
Lemma dash_junction (c : N) (x y t1 t2 : str) :
  c <> 32%N -> ~ In c t1 -> ~ In c t2 ->
  x ++ 32%N :: c :: 32%N :: y = t1 ++ c :: t2 ->
  exists t2', t2 = 32%N :: t2'.
Proof.
  intros Hc H1 H2. revert x; induction t1 as [|z t1 IH]; intros x E.
  - destruct x as [|w x]; cbn [app] in E; injection E as E0 E.
    + congruence.
    + destruct H2. rewrite <- E. apply in_or_app; right. right; left.
      reflexivity.
  - destruct x as [|w x]; cbn [app] in E; injection E as E0 E.
    + destruct t1 as [|v t1]; cbn [app] in E.
      * injection E as E. exists y. symmetry. exact E.
      * injection E as E1 E. destruct H1. right; left. symmetry. exact E1.
    + apply (IH (fun Hin => H1 (or_intror Hin)) x E).
Qed.

Lemma time_text_head (h m : Z) (pm : bool) :
  0 <= h -> forall rest, time_text h m pm <> 32%N :: rest.
Proof.
  intros Hh rest. unfold time_text, hour_text, digit.
  destruct (h <? 10); cbn [app]; intros [= E _].
  - lia.
  - assert (0 <= h / 10) by (apply Z.div_pos; lia). lia.
Qed.

(** Two valid times joined by a dash alone hold no separator. *)
Lemma bare_dash_no_separator (d : N) (h1 m1 : Z) (pm1 : bool) (h2 m2 : Z)
  (pm2 : bool) (sep : str) :
  d = en_dash \/ d = em_dash ->
  1 <= h1 <= 12 -> 0 <= m1 <= 59 -> 1 <= h2 <= 12 -> 0 <= m2 <= 59 ->
  In sep separators ->
  ~ occurs sep (time_text h1 m1 pm1 ++ [d] ++ time_text h2 m2 pm2).
Proof.
  intros Hd Hh1 Hm1 Hh2 Hm2 Hsep Ho.
  pose proof (plain_time_text h1 m1 pm1 Hh1 Hm1) as P1.
  pose proof (plain_time_text h2 m2 pm2 Hh2 Hm2) as P2.
  assert (Hin : forall c, plain_char c = false -> c <> d ->
                  ~ In c (time_text h1 m1 pm1 ++ [d] ++ time_text h2 m2 pm2)).
  { intros c Hc Hcd Hin. apply in_app_or in Hin.
    destruct Hin as [Hin|[Hin|Hin]].
    - exact (plain_not_in _ c P1 Hc Hin).
    - congruence.
    - exact (plain_not_in _ c P2 Hc Hin). }
  assert (Hj : ~ occurs [32%N; d; 32%N]
                   (time_text h1 m1 pm1 ++ [d] ++ time_text h2 m2 pm2)).
  { intros [x [y E]]. symmetry in E.
    assert (Hp : plain_char d = false) by (destruct Hd as [->| ->]; reflexivity).
    destruct (dash_junction d x y _ _ ltac:(destruct Hd as [->| ->]; discriminate)
                (plain_not_in _ d P1 Hp) (plain_not_in _ d P2 Hp) E)
      as [rest Hr].
    exact (time_text_head h2 m2 pm2 ltac:(lia) rest Hr). }
  destruct Hsep as [<-|[<-|[<-|[<-|[]]]]].
  - apply (Hin 45%N); [reflexivity | destruct Hd as [->| ->]; discriminate|].
    apply (occurs_in _ _ 45%N Ho). cbn; tauto.
  - apply (Hin 116%N); [reflexivity | destruct Hd as [->| ->]; discriminate|].
    apply (occurs_in _ _ 116%N Ho). cbn; tauto.
  - destruct Hd as [->| ->]; [exact (Hj Ho)|].
    apply (Hin en_dash); [reflexivity | discriminate|].
    apply (occurs_in _ _ en_dash Ho). cbn; tauto.
  - destruct Hd as [->| ->]; [|exact (Hj Ho)].
    apply (Hin em_dash); [reflexivity | discriminate|].
    apply (occurs_in _ _ em_dash Ho). cbn; tauto.
Qed.

End Ranges.

(** [C3] Two texts joined by [" - "], [" to "], or an en dash or em dash
    with a blank on each side, the texts holding no dash and no separator
    of their own, are read as a range: the separator is brought to the
    hyphen form, the string is split there, and the answer is the pair
    (start, end) of the minutes of the two texts when both are times for
    [_parse_time_to_minutes] -- so for two valid times the pair of their
    minutes -- and [None] as soon as one of them is not. The parser
    answers [None] for every string in which none of the four separators
    occurs. A dash without blanks is no separator: two valid times joined
    by an en dash or an em dash alone give [None]. *)
Theorem parse_time_range_spec {U : UnicodeDB} :
  reads_ranges_with separators
  /\ (forall sep a b,
        In sep separators -> left_side a -> right_side b ->
        _parse_time_range (a ++ sep ++ b)
        = match _parse_time_to_minutes a, _parse_time_to_minutes b with
          | Some start, Some end_ => Some (start, end_)
          | _, _ => None
          end)
  /\ (forall s,
        (forall sep, In sep separators -> ~ occurs sep s) ->
        _parse_time_range s = None)
  /\ (forall d h1 m1 pm1 h2 m2 pm2,
        d = en_dash \/ d = em_dash ->
        1 <= h1 <= 12 -> 0 <= m1 <= 59 -> 1 <= h2 <= 12 -> 0 <= m2 <= 59 ->
        _parse_time_range (time_text h1 m1 pm1 ++ [d] ++ time_text h2 m2 pm2)
        = None).
Proof.
  assert (G : forall sep a b,
             In sep separators -> left_side a -> right_side b ->
             _parse_time_range (a ++ sep ++ b)
             = match _parse_time_to_minutes a, _parse_time_to_minutes b with
               | Some start, Some end_ => Some (start, end_)
               | _, _ => None
               end).
  { intros sep a b Hsep Ha Hb.
    apply range_of_normalized.
    - destruct Hsep as [<-|[<-|[<-|[<-|[]]]]]; destruct a; discriminate.
    - apply normalized_separator; assumption.
    - apply Ha. }
  split; [|split; [|split]].
  - intros sep h1 m1 pm1 h2 m2 pm2 Hsep Hh1 Hm1 Hh2 Hm2.
    rewrite G by (assumption
                  || (apply plain_left, plain_time_text; assumption)
                  || (apply plain_right, plain_time_text; assumption)).
    rewrite !parse_time_text by assumption. reflexivity.
  - exact G.
  - apply @range_absent.
  - intros d h1 m1 pm1 h2 m2 pm2 Hd Hh1 Hm1 Hh2 Hm2.
    apply range_absent. intros sep Hsep.
    apply bare_dash_no_separator; assumption.
Qed.

Lemma parse_time_range_witness :
  _parse_time_range (U := ascii_db)
    (time_text 7 0 false ++ [32%N; en_dash; 32%N] ++ time_text 10 30 false)
  = Some (420, 630)
  /\ _parse_time_range (U := ascii_db)
       (u "8:00 at night" ++ u " to " ++ u "9:00 PM")
     = None
  /\ _parse_time_range (U := ascii_db) (u "7:00 AM-10:30 AM") = None
  /\ _parse_time_range (U := ascii_db)
       (time_text 7 0 false ++ [em_dash] ++ time_text 10 30 false)
     = None.
Proof.
  pose proof (parse_time_range_spec (U := ascii_db)) as [Hv [Hg [Ha Hd]]].
  split; [|split; [|split]].
  - apply Hv; [right; right; left; reflexivity | lia..].
  - apply (Hg (u " to ") (u "8:00 at night") (u "9:00 PM")).
    + right; left; reflexivity.
    + repeat split; try (apply not_occurs; reflexivity);
        vm_compute; intuition discriminate.
    + repeat split; try (apply not_occurs; reflexivity);
        vm_compute; intuition discriminate.
  - apply Ha. intros sep [<-|[<-|[<-|[<-|[]]]]]; apply not_occurs; reflexivity.
  - apply Hd; [right; reflexivity | lia..].
Defined.

(** An en dash without blanks around it is not read as a separator: the
    range of 7:00 AM and 10:30 AM written with it gives [None]. *)
Lemma parse_time_range_bare_dash :
  ~ reads_ranges_with (U := ascii_db) bare_separators.
Proof.
  intros H.
  specialize (H [en_dash] 7 0 false 10 30 false).
  assert (E : _parse_time_range (U := ascii_db)
                (time_text 7 0 false ++ [en_dash] ++ time_text 10 30 false)
              = None) by (vm_compute; reflexivity).
  rewrite E in H. discriminate H; [right; right; left; reflexivity | lia..].
Qed.

(** Why a side may not hold a dash: an en dash between ["9:"] and
    ["5 AM"] becomes a minus sign, so that the range is read although that
    side is no time. *)
Lemma dash_inside_a_side :
  _parse_time_to_minutes (U := ascii_db) (u "9:" ++ [en_dash] ++ u "5 AM")
  = None
  /\ _parse_time_range (U := ascii_db)
       (u "7:00 AM - 9:" ++ [en_dash] ++ u "5 AM")
     = Some (420, 535).
Proof. split; vm_compute; reflexivity. Qed.

(** [C4] [_is_time_in_range] decides the half-open interval
    [[start, end)] when [start <= end]; when [end < start] the range wraps
    past midnight and holds exactly the minutes with [current >= start] or
    [current < end]. In particular 23:00 is inside 22:00-6:00 and 7:00 is
    not. *)
Theorem is_time_in_range_spec (current start end_ : Z) :
  (start <= end_ ->
     (_is_time_in_range current start end_ = true <-> start <= current < end_))
  /\ (end_ < start ->
        (_is_time_in_range current start end_ = true
         <-> current >= start \/ current < end_))
  /\ _is_time_in_range (23 * 60) (22 * 60) (6 * 60) = true
  /\ _is_time_in_range (7 * 60) (22 * 60) (6 * 60) = false.
Proof.
  unfold _is_time_in_range.
  split; [|split; [|split; reflexivity]]; intros H.
  - destruct (Z.ltb_spec end_ start); [lia|].
    rewrite andb_true_iff, Z.leb_le, Z.ltb_lt. tauto.
  - destruct (Z.ltb_spec end_ start); [|lia].
    rewrite orb_true_iff, Z.leb_le, Z.ltb_lt. lia.
Qed.

Lemma is_time_in_range_witness :
  _is_time_in_range 30 1320 360 = true /\ _is_time_in_range 600 420 630 = true.
Proof.
  split.
  - apply (proj1 (proj2 (is_time_in_range_spec 30 1320 360))); lia.
  - apply (proj1 (is_time_in_range_spec 600 420 630)); lia.
Defined.

End TimeParserFacts.

(** ** The meal-period resolver *)

Module ResolverFacts.

Import PyFacts.
Local Open Scope Z_scope.

Section Resolving.
Context {U : UnicodeDB}.

Lemma spaces_to_underscores (s : str) :
  replace (u " ") (u "_") s = map underscore s.
Proof.
  change (u " ") with [32%N]. rewrite replace_char.
  induction s as [|c s IH]; cbn [flat_map map]; [reflexivity|].
  rewrite IH. unfold underscore. rewrite (N.eqb_sym 32 c).
  destruct (c =? 32)%N; reflexivity.
Qed.

Lemma scan_meals_found (cur : Z) (before after : list MealBlock)
  (meal : MealBlock) :
  Forall (fun b => active cur b = false) before ->
  active cur meal = true ->
  scan_meals cur (before ++ meal :: after)
  = Some (_normalize_meal_type (meal_type meal)).
Proof.
  intros Hb Hm. induction Hb as [|b before Hb _ IH]; cbn [app scan_meals].
  - unfold active in Hm.
    destruct (_parse_time_range (str_or (time meal) [])) as [[s e]|];
      [rewrite Hm; reflexivity | discriminate].
  - unfold active in Hb.
    destruct (_parse_time_range (str_or (time b) [])) as [[s e]|];
      [rewrite Hb|]; exact IH.
Qed.

Lemma scan_meals_none (cur : Z) (blocks : list MealBlock) :
  Forall (fun b => active cur b = false) blocks ->
  scan_meals cur blocks = None.
Proof.
  induction 1 as [|b blocks Hb _ IH]; cbn [scan_meals]; [reflexivity|].
  unfold active in Hb.
  destruct (_parse_time_range (str_or (time b) [])) as [[s e]|];
    [rewrite Hb|]; exact IH.
Qed.

Lemma normalize_meal_type_value (s : str) :
  s <> [] ->
  _normalize_meal_type (Some s)
  = let value := map underscore (lower (strip s)) in
    if startswith value (u "late") then u "late_night" else value.
Proof.
  intros Hne. destruct s as [|c s]; [congruence|].
  unfold _normalize_meal_type. rewrite spaces_to_underscores. cbv zeta.
  destruct (startswith _ (u "late")); [reflexivity|].
  destruct (str_eqb _ (u "all_day")) eqn:E; [|reflexivity].
  apply str_eqb_eq in E. symmetry. exact E.
Qed.

(** Trimming removes the white space around a text that neither starts
    nor ends with white space, and nothing else. *)
Lemma strip_pad (pre core post : str) :
  spaces pre -> spaces post ->
  Words.head_ok core -> Words.head_ok (rev core) ->
  strip (pre ++ core ++ post) = core.
Proof.
  intros Hpre Hpost Hh Hl. unfold strip, rstrip.
  rewrite (lstrip_spaces pre _ Hpre).
  destruct core as [|c core].
  - cbn [app]. rewrite <- (app_nil_r post), (lstrip_spaces post [] Hpost).
    reflexivity.
  - cbn [app lstrip]. cbn [Words.head_ok] in Hh. rewrite Hh.
    change (c :: core ++ post) with ((c :: core) ++ post).
    rewrite rev_app_distr, (lstrip_spaces _ _ (spaces_rev post Hpost)).
    destruct (rev (c :: core)) as [|l r] eqn:E.
    + apply (f_equal (@rev N)) in E. rewrite rev_involutive in E.
      discriminate E.
    + cbn [lstrip]. cbn [Words.head_ok] in Hl. rewrite Hl, <- E.
      apply rev_involutive.
Qed.

(** What the three steps after the trimming do to an ASCII text, character
    by character. *)
Lemma lowered_underscored (core : str) :
  Words.ascii core ->
  map underscore (lower core)
  = map (fun c => if (c =? 32)%N then 95%N
                  else if ((65 <=? c) && (c <=? 90))%N then (c + 32)%N
                  else c) core.
Proof.
  intros Ha. unfold lower. rewrite Ha, map_map. apply map_ext. intros c.
  unfold underscore, ascii_lower, is_upper.
  destruct (N.eqb_spec c 32) as [->|Hc]; [reflexivity|].
  destruct (N.leb_spec 65 c), (N.leb_spec c 90); cbn [andb];
    try (destruct (N.eqb_spec c 32); [contradiction | reflexivity]).
  destruct (N.eqb_spec (c + 32) 32); [lia | reflexivity].
Qed.

End Resolving.

(** [C5] A hall without meal blocks gets the global default period.
    Otherwise the resolver answers the normalized meal type of the first
    block whose time range parses and holds the current minute, and, when
    there is no such block, the normalized meal type of the first block
    whatever its time. Normalizing trims, lowers the case, turns blanks into
    underscores and answers ["late_night"] for what then starts with
    ["late"]; a missing or empty meal type gives ["unknown"]. For an ASCII
    meal type this is said character by character: the white space around
    the text is dropped, every capital letter becomes the small one, every
    blank that is left an underscore; so ["  Late Night "] gives
    ["late_night"], [" Grab and Go "] gives ["grab_and_go"], ["Lunch"]
    gives ["lunch"] and ["all_day"] stays. *)
Theorem hall_current_period_spec {U : UnicodeDB}
  (default_period : str) (now_hour now_minute : Z) (hall : Hall) :
  let current := now_hour * 60 + now_minute in
  let period :=
    _get_hall_current_period default_period now_hour now_minute hall in
  (meals hall = None \/ meals hall = Some [] -> period = default_period)
  /\ (forall before meal after,
        meals hall = Some (before ++ meal :: after) ->
        Forall (fun b => active current b = false) before ->
        active current meal = true ->
        period = _normalize_meal_type (meal_type meal))
  /\ (forall first rest,
        meals hall = Some (first :: rest) ->
        Forall (fun b => active current b = false) (first :: rest) ->
        period = _normalize_meal_type (meal_type first))
  /\ _normalize_meal_type None = u "unknown"
  /\ _normalize_meal_type (Some []) = u "unknown"
  /\ (forall s, s <> [] ->
        _normalize_meal_type (Some s)
        = let value := map underscore (lower (strip s)) in
          if startswith value (u "late") then u "late_night" else value)
  /\ (forall pre core post,
        spaces pre -> spaces post -> core <> [] ->
        Words.head_ok core -> Words.head_ok (rev core) ->
        Words.ascii core ->
        let value :=
          map (fun c => if (c =? 32)%N then 95%N
                        else if ((65 <=? c) && (c <=? 90))%N then (c + 32)%N
                        else c) core in
        ((exists r, value = u "late" ++ r) ->
           _normalize_meal_type (Some (pre ++ core ++ post)) = u "late_night")
        /\ ((forall r, value <> u "late" ++ r) ->
              _normalize_meal_type (Some (pre ++ core ++ post)) = value))
  /\ _normalize_meal_type (Some (u "  Late Night ")) = u "late_night"
  /\ _normalize_meal_type (Some (u " Grab and Go ")) = u "grab_and_go"
  /\ _normalize_meal_type (Some (u "Lunch")) = u "lunch"
  /\ _normalize_meal_type (Some (u "all_day")) = u "all_day".
Proof.
  cbv zeta. unfold _get_hall_current_period.
  split; [|split; [|split; [|split; [|split; [|split; [|split]]]]]].
  - intros [-> | ->]; reflexivity.
  - intros before meal after -> Hb Hm.
    destruct (before ++ meal :: after) as [|first rest] eqn:E.
    + destruct before; discriminate.
    + rewrite <- E, (scan_meals_found _ _ _ _ Hb Hm). reflexivity.
  - intros first rest -> Hall. rewrite (scan_meals_none _ _ Hall).
    reflexivity.
  - reflexivity.
  - reflexivity.
  - apply @normalize_meal_type_value.
  - intros pre core post Hpre Hpost Hne Hh Hl Ha.
    assert (Hs : pre ++ core ++ post <> []).
    { destruct pre; [destruct core; [congruence | discriminate]
                    | discriminate]. }
    rewrite (normalize_meal_type_value _ Hs). cbv zeta.
    rewrite (strip_pad pre core post Hpre Hpost Hh Hl).
    rewrite (lowered_underscored core Ha).
    destruct (startswith _ (u "late")) eqn:E.
    + split; [reflexivity|]. intros Hn.
      apply startswith_inv in E. destruct E as [r E]. destruct (Hn r E).
    + split; [|reflexivity]. intros [r Hr]. rewrite Hr in E.
      rewrite startswith_app in E. discriminate E.
  - repeat split; vm_compute; reflexivity.
Qed.

Lemma hall_current_period_witness :
  _get_hall_current_period (U := ascii_db) (u "dinner") 23 30 hall_x
  = u "late_night"
  /\ _get_hall_current_period (U := ascii_db) (u "dinner") 12 0 hall_x
     = u "breakfast"
  /\ _get_hall_current_period (U := ascii_db) (u "dinner") 12 0
       {| name := None; source := None; university := None; status := None;
          meals := Some [] |}
     = u "dinner"
  /\ _normalize_meal_type (U := ascii_db)
       (Some (u "  " ++ u "Grab and Go" ++ u " "))
     = u "grab_and_go".
Proof.
  split; [|split; [|split]].
  - apply (proj1 (proj2 (hall_current_period_spec (U := ascii_db)
                           (u "dinner") 23 30 hall_x))
             [ {| meal_type := Some (u "Breakfast");
                  time := Some (u "7:00 AM - 10:30 AM") |} ]
             {| meal_type := Some (u "Late Night");
                time := Some (u "10:00 PM - 1:00 AM") |} []).
    + reflexivity.
    + repeat constructor.
    + reflexivity.
  - apply (proj1 (proj2 (proj2 (hall_current_period_spec (U := ascii_db)
                                  (u "dinner") 12 0 hall_x))) _ _ eq_refl).
    repeat constructor.
  - apply (proj1 (hall_current_period_spec (U := ascii_db) (u "dinner") 12 0
                    _)).
    right; reflexivity.
  - pose proof (hall_current_period_spec (U := ascii_db) (u "dinner") 12 0
                  hall_x) as (_ & _ & _ & _ & _ & _ & H & _).
    apply (H (u "  ") (u "Grab and Go") (u " ")).
    + repeat constructor.
    + repeat constructor.
    + discriminate.
    + reflexivity.
    + reflexivity.
    + reflexivity.
    + intros r. vm_compute. discriminate.
Defined.

End ResolverFacts.

(** ** The legacy schema normalizer *)

Module LegacyFacts.

Import Legacy.

Section Normalizing.
Context {U : UnicodeDB}.
Variable py_str_other : value -> str.

Lemma normalized_has_meals (now_iso : str) (hall hall' : list (str * value)) :
  _normalize_legacy_hall py_str_other now_iso hall = Ok hall' ->
  has_key hall' (u "meals") = true.
Proof.
  unfold _normalize_legacy_hall.
  destruct (has_key hall (u "meals")) eqn:E.
  - intros [= <-]. exact E.
  - destruct (iterate _) as [raw|e]; [|discriminate]. cbn [mbind result_bind].
    destruct (legacy_items raw) as [items|e]; [|discriminate].
    cbn [mbind result_bind]. intros [= <-]. reflexivity.
Qed.

Lemma canonical_unchanged (now_iso : str) (hall : list (str * value)) :
  has_key hall (u "meals") = true ->
  _normalize_legacy_hall py_str_other now_iso hall = Ok hall.
Proof. intros H. unfold _normalize_legacy_hall. rewrite H. reflexivity. Qed.

End Normalizing.

(** [C6] Normalizing is idempotent: normalizing the outcome of a
    normalization again, at whatever later time, changes nothing (and when
    the first normalization raises, so does the whole). A document that
    already has the key ["meals"] comes back unchanged, and every
    normalized document has that key. *)
Theorem normalize_legacy_idempotent {U : UnicodeDB}
  (py_str_other : value -> str) (now1 now2 : str)
  (hall : list (str * value)) :
  (has_key hall (u "meals") = true ->
     _normalize_legacy_hall py_str_other now1 hall = Ok hall)
  /\ (_normalize_legacy_hall py_str_other now1 hall
        ≫= _normalize_legacy_hall py_str_other now2)
     = _normalize_legacy_hall py_str_other now1 hall
  /\ (forall hall',
        _normalize_legacy_hall py_str_other now1 hall = Ok hall' ->
        has_key hall' (u "meals") = true).
Proof.
  split; [|split].
  - apply canonical_unchanged.
  - destruct (_normalize_legacy_hall py_str_other now1 hall) as [hall'|e] eqn:E;
      cbn [mbind result_bind]; [|reflexivity].
    apply canonical_unchanged. apply (normalized_has_meals _ _ _ _ E).
  - intros hall'. apply normalized_has_meals.
Qed.

Lemma normalize_legacy_witness :
  _normalize_legacy_hall (U := ascii_db) (fun _ => []) (u "2026-02-03T12:00:00")
    canonical_doc = Ok canonical_doc
  /\ (exists hall',
        _normalize_legacy_hall (U := ascii_db) (fun _ => [])
          (u "2026-02-03T12:00:00") legacy_doc = Ok hall'
        /\ has_key hall' (u "meals") = true
        /\ dict_lookup hall' (u "status") = Some (VStr (u "open"))).
Proof.
  pose proof (normalize_legacy_idempotent (U := ascii_db) (fun _ => [])
                (u "2026-02-03T12:00:00") [] canonical_doc) as [Hc _].
  split; [apply Hc; reflexivity|].
  destruct (_normalize_legacy_hall (U := ascii_db) (fun _ => [])
              (u "2026-02-03T12:00:00") legacy_doc) as [hall'|e] eqn:E;
    [|discriminate E].
  exists hall'. split; [reflexivity|]. split.
  - apply (proj2 (proj2 (normalize_legacy_idempotent (U := ascii_db)
                           (fun _ => []) (u "2026-02-03T12:00:00") []
                           legacy_doc)) hall' E).
  - vm_compute in E. injection E as <-. reflexivity.
Defined.

End LegacyFacts.

(** ** The scraper runner *)

Module ScrapersFacts.

Import Scrapers.
Local Open Scope Z_scope.

Lemma too_many_errors_iff (all_results : list Hall) :
  too_many_errors all_results = true
  <-> 2 * error_count all_results > Z.of_nat (length all_results).
Proof.
  unfold too_many_errors. destruct all_results as [|r rest].
  - split; [discriminate|]. unfold error_count. cbn [List.filter length].
    lia.
  - rewrite negb_true_iff, <- not_true_iff_false, Qle_bool_iff.
    unfold Qle. cbn [Qnum Qden inject_Z]. lia.
Qed.

(** [C8] When more than half of the entries of the combined result are in
    error status, nothing is written and the saved file stays as it was;
    otherwise the file is replaced by the combined result. *)
Theorem run_all_scrapers_saves {U : UnicodeDB} (output_file : file)
  (columbia cornell : option (list Hall)) :
  let '(after, all_results) := run_all_scrapers output_file columbia cornell in
  (2 * error_count all_results > Z.of_nat (length all_results) ->
     after = output_file)
  /\ (2 * error_count all_results <= Z.of_nat (length all_results) ->
        after = Doc all_results).
Proof.
  unfold run_all_scrapers. cbv zeta.
  set (all_results := (_ ++ _)%list).
  destruct (too_many_errors all_results) eqn:E.
  - split; [reflexivity|]. apply too_many_errors_iff in E. lia.
  - split; [|reflexivity]. intros H. apply too_many_errors_iff in H.
    congruence.
Qed.

Lemma run_all_scrapers_witness :
  fst (run_all_scrapers (U := ascii_db)
         (Doc [sample_hall "Hewitt" "barnard" "open"])
         (Some [sample_hall "John Jay" "columbia" "error"]) None)
  = Doc [sample_hall "Hewitt" "barnard" "open"]
  /\ fst (run_all_scrapers (U := ascii_db)
            (Doc [sample_hall "Hewitt" "barnard" "open"])
            (Some [sample_hall "John Jay" "columbia" "open"])
            (Some [sample_hall "Okenshields" "cornell" "error"]))
     = Doc [sample_hall "John Jay" "columbia" "open";
            sample_hall "Okenshields" "cornell" "error"].
Proof.
  split.
  - pose proof (run_all_scrapers_saves (U := ascii_db)
                  (Doc [sample_hall "Hewitt" "barnard" "open"])
                  (Some [sample_hall "John Jay" "columbia" "error"]) None)
      as H.
    destruct (run_all_scrapers _ _ _) as [after all_results] eqn:E.
    cbn [fst]. apply H.
    vm_compute in E. injection E as _ <-. vm_compute; reflexivity.
  - pose proof (run_all_scrapers_saves (U := ascii_db)
                  (Doc [sample_hall "Hewitt" "barnard" "open"])
                  (Some [sample_hall "John Jay" "columbia" "open"])
                  (Some [sample_hall "Okenshields" "cornell" "error"]))
      as H.
    destruct (run_all_scrapers _ _ _) as [after all_results] eqn:E.
    cbn [fst]. destruct H as [_ H].
    vm_compute in E. injection E as _ <-.
    apply H. vm_compute; discriminate.
Defined.

End ScrapersFacts.

(** ** The refresh orchestration *)

Module RefreshFacts.

Import Refresh.

Lemma count_app (p : worker -> bool) (ws : list worker) (w : worker) :
  count p (ws ++ [w]) = count p ws + (if p w then 1 else 0).
Proof.
  unfold count. rewrite List.filter_app, length_app. cbn [List.filter].
  destruct (p w); reflexivity.
Qed.

Lemma count_insert (p : worker -> bool) (ws : list worker) (i : nat)
  (w w' : worker) :
  ws !! i = Some w ->
  count p (<[i := w']> ws) + (if p w then 1 else 0)
  = count p ws + (if p w' then 1 else 0).
Proof.
  unfold count. revert i; induction ws as [|x ws IH]; intros i H.
  - destruct i; discriminate H.
  - destruct i as [|i].
    + injection H as ->. cbn [insert list_insert List.filter].
      destruct (p w), (p w'); cbn [length]; lia.
    + change ((x :: ws) !! S i) with (ws !! i) in H. specialize (IH i H).
      change (<[S i := w']> (x :: ws)) with (x :: <[i := w']> ws).
      cbn [List.filter].
      destruct (p x), (p w), (p w'); cbn [length] in *; lia.
Qed.

Lemma count_le (p q : worker -> bool) (ws : list worker) :
  (forall w, p w = true -> q w = true) -> count p ws <= count q ws.
Proof.
  intros H. unfold count. induction ws as [|x ws IH]; cbn [List.filter].
  - lia.
  - destruct (p x) eqn:E.
    + rewrite (H x E). cbn [length]. lia.
    + destruct (q x); cbn [length]; lia.
Qed.

Ltac counts i w' H :=
  unfold move; cbn [workers lock flag];
  pose proof (count_insert holds_lock _ i _ w' H);
  pose proof (count_insert owns_flag _ i _ w' H);
  pose proof (count_insert setting _ i _ w' H);
  cbn [holds_lock owns_flag setting] in *.

Lemma step_guarded (auto_refresh : bool) (s s' : state) :
  guarded s -> step auto_refresh s s' -> guarded s'.
Proof.
  intros (Hl & Hf & Hs) Hstep.
  pose proof (count_le setting holds_lock (workers s)
                ltac:(intros []; cbn; congruence)) as Hle.
  destruct Hstep as [s|s i H Hk|s i H|s i H|s i skip H|s i H|s i H|s _ _|s _];
    unfold guarded.
  - cbn [workers lock flag]. rewrite !count_app.
    cbn [holds_lock owns_flag setting]. rewrite !Nat.add_0_r.
    exact (conj Hl (conj Hf Hs)).
  - counts i Test H. rewrite Hk in Hl.
    split; [lia | split; [lia|]]. intros Ht. specialize (Hs Ht). lia.
  - destruct (flag s) eqn:Ef.
    + counts i (Leave true) H.
      split; [lia | split; [lia|]]. intros _. specialize (Hs eq_refl). lia.
    + counts i SetFlag H.
      split; [lia | split; [lia | discriminate]].
  - counts i (Leave false) H.
    assert (Ef : flag s = false).
    { destruct (flag s); [specialize (Hs eq_refl); lia | reflexivity]. }
    rewrite Ef in Hf.
    split; [lia | split; [lia|]]. intros _. destruct (lock s); lia.
  - assert (El : lock s = true) by
      (pose proof (count_insert holds_lock _ i _ Done H) as C;
       cbn [holds_lock] in C; destruct (lock s); [reflexivity | lia]).
    rewrite El in Hl. destruct skip.
    + counts i Done H.
      split; [lia | split; [lia|]]. intros Ht. specialize (Hs Ht). lia.
    + counts i Run H.
      split; [lia | split; [lia|]]. intros Ht. specialize (Hs Ht). lia.
  - counts i Clear H.
    split; [lia | split; [lia|]]. intros Ht. specialize (Hs Ht). lia.
  - counts i Done H.
    assert (Ef : flag s = true) by (destruct (flag s); [reflexivity | lia]).
    rewrite Ef in Hf.
    split; [lia | split; [lia | discriminate]].
  - exact (conj Hl (conj Hf Hs)).
  - exact (conj Hl (conj Hf Hs)).
Qed.

Lemma reachable_guarded (auto_refresh : bool) (s : state) :
  reachable auto_refresh s -> guarded s.
Proof.
  induction 1 as [|s s' _ IH Hstep].
  - repeat split; discriminate.
  - exact (step_guarded _ _ _ IH Hstep).
Qed.

(** Among the runs started through [trigger_refresh_async] at most one is
    in progress, whatever the setting. *)
Lemma guarded_runs_exclusive (auto_refresh : bool) (s : state) :
  reachable auto_refresh s -> count running (workers s) <= 1.
Proof.
  intros H. destruct (reachable_guarded _ _ H) as (_ & Hf & _).
  pose proof (count_le running owns_flag (workers s)
                ltac:(intros []; cbn; congruence)).
  destruct (flag s); lia.
Qed.

Lemma no_job_without_auto_refresh (s : state) :
  reachable false s -> sched s = Waiting.
Proof.
  induction 1 as [|s s' _ IH Hstep]; [reflexivity|].
  destruct Hstep; cbn; try assumption; try reflexivity. discriminate.
Qed.

(** With the daily job not registered, at most one run is in flight. *)
Lemma one_run_without_schedule (s : state) :
  reachable false s -> in_flight s <= 1.
Proof.
  intros H. unfold in_flight. rewrite (no_job_without_auto_refresh s H).
  pose proof (guarded_runs_exclusive false s H). lia.
Qed.

(** A worker that finds the flag set leaves without running. *)
Lemma busy_trigger_is_dropped (auto_refresh : bool) (s : state) (i : nat) :
  workers s !! i = Some Test -> flag s = true ->
  exists s1 s2,
    step auto_refresh s s1 /\ step auto_refresh s1 s2
    /\ workers s2 !! i = Some Done /\ flag s2 = flag s
    /\ count running (workers s2) = count running (workers s).
Proof.
  intros H Hf.
  assert (Hi : i < length (workers s)) by (eapply lookup_lt_Some; eassumption).
  exists (move s i (Leave true) (lock s) (flag s)).
  exists (move (move s i (Leave true) (lock s) (flag s)) i Done false (flag s)).
  assert (H1 : workers (move s i (Leave true) (lock s) (flag s)) !! i
               = Some (Leave true)).
  { cbn. apply list_lookup_insert_eq. exact Hi. }
  repeat split.
  - pose proof (step_test auto_refresh s i H) as St. rewrite Hf in St.
    rewrite Hf. exact St.
  - exact (step_leave auto_refresh _ i true H1).
  - cbn. apply list_lookup_insert_eq. rewrite length_insert. exact Hi.
  - pose proof (count_insert running _ i _ Done H1) as C1.
    pose proof (count_insert running _ i _ (Leave true) H) as C2.
    unfold move in *. cbn [workers running] in *. lia.
Qed.

(** [C9] The daily job calls [update_menus] without the guard: with the
    job registered, a state is reached in which two runs are in flight,
    the scheduled one and one started by [trigger_refresh_async]. *)
Theorem scheduled_job_overlaps :
  exists s, reachable true s /\ in_flight s = 2.
Proof.
  exists {| lock := false; flag := true; workers := [Run]; sched := Job |}.
  split; [|reflexivity].
  eapply reach_step;
    [|exact (step_leave true
               {| lock := true; flag := true; workers := [Leave false];
                  sched := Job |} 0 false eq_refl)].
  eapply reach_step;
    [|exact (step_set true
               {| lock := true; flag := false; workers := [SetFlag];
                  sched := Job |} 0 eq_refl)].
  eapply reach_step;
    [|exact (step_test true
               {| lock := true; flag := false; workers := [Test];
                  sched := Job |} 0 eq_refl)].
  eapply reach_step;
    [|exact (step_acquire true
               {| lock := false; flag := false; workers := [Acquire];
                  sched := Job |} 0 eq_refl eq_refl)].
  eapply reach_step;
    [|exact (step_trigger true
               {| lock := false; flag := false; workers := [];
                  sched := Job |})].
  eapply reach_step; [|exact (step_job_start true init eq_refl eq_refl)].
  apply reach_init.
Qed.

End RefreshFacts.

(** ** Rating submission *)

Module RatingsFacts.

Import Ratings.

Section Validation.
Context {U : UnicodeDB}.
Variable menu : list Hall.
Variable default_period : str.
Variables now_hour now_minute : Z.
Variable current_date : str.
Variable DB : Type.
Variable submit_rating :
  value -> value -> str -> str -> float -> str -> DB -> DB * bool.

Local Abbreviation post :=
  (post_rating menu default_period now_hour now_minute current_date DB
     submit_rating).

Lemma all_in_dict (d : list (str * value)) (fields : list str) :
  all_in (VDict d) fields = Ok (forallb (has_key d) fields).
Proof.
  induction fields as [|f rest IH]; [reflexivity|].
  cbn [all_in field_in mbind result_bind forallb].
  destruct (has_key d f); [exact IH | reflexivity].
Qed.

Lemma has_key_lookup (d : list (str * value)) (k : str) :
  has_key d k = true -> exists v, dict_lookup d k = Some v.
Proof.
  unfold has_key. destruct (dict_lookup d k) as [v|]; [eauto | discriminate].
Qed.


(** With all the fields there, the answer follows what [float] makes of
    the rating: not a number and out of range are refused, an accepted
    rating is rounded before it is stored, and an [OverflowError] leaves
    the handler. *)
Lemma post_rating_present (d : list (str * value)) (db : DB) (v : value) :
  missing_field d = false ->
  dict_lookup d (u "rating") = Some v ->
  match py_float v with
  | Raise ValueError | Raise TypeError =>
      post (VDict d) db = (Json400 "Rating must be a number", db)
  | Raise e => post (VDict d) db = (Unhandled e, db)
  | Ok rating =>
      if in_range rating
      then (forall msg, fst (post (VDict d) db) <> Json400 msg)
           /\ (forall period stored,
                 fst (post (VDict d) db) = Json200 (period, stored) ->
                 stored = round1 rating)
      else post (VDict d) db
           = (Json400 "Rating must be between 0 and 10", db)
  end.
Proof.
  unfold missing_field. rewrite negb_false_iff. intros Hall Hv.
  assert (Ht : truthy (VDict d) = true)
    by (destruct d; [discriminate Hv | reflexivity]).
  unfold post_rating. rewrite Ht. cbn [negb]. rewrite all_in_dict, Hall.
  cbn [subscript]. rewrite Hv. cbn [mbind result_bind].
  destruct (py_float v) as [rating|e].
  - unfold in_range. destruct (leb (of_Z 0) rating && leb rating (of_Z 10));
      cbn [negb]; [|reflexivity].
    destruct (_ ≫= _) as [period|e]; [|split; [discriminate | discriminate]].
    destruct (_ ≫= _) as [[[dev hn] uni]|e];
      [|split; [discriminate | discriminate]].
    destruct (submit_rating _ _ _ _ _ _ _) as [db' raised].
    destruct raised; cbn [fst]; split; try discriminate.
    intros p stored [= _ <-]. reflexivity.
  - destruct e; reflexivity.
Qed.

End Validation.

(** [C7] A rating that is an integer too large for a double is neither
    refused with a validation error nor stored: [float] raises
    [OverflowError], which the handler does not catch. *)
Theorem post_rating_huge_integer {U : UnicodeDB} (menu : list Hall)
  (default_period : str) (now_hour now_minute : Z) (current_date : str)
  (DB : Type)
  (submit_rating :
     value -> value -> str -> str -> float -> str -> DB -> DB * bool)
  (db : DB) :
  post_rating menu default_period now_hour now_minute current_date DB
    submit_rating (rating_request (VInt (10 ^ 400))) db
  = (Unhandled OverflowError, db).
Proof.
  pose proof (post_rating_present menu default_period now_hour now_minute
                current_date DB submit_rating
                [ (u "device_id", VStr (u "device-1"));
                  (u "hall_name", VStr (u "John Jay"));
                  (u "university", VStr (u "Columbia"));
                  (u "rating", VInt (10 ^ 400)) ] db (VInt (10 ^ 400))
                eq_refl eq_refl) as H.
  assert (E : py_float (VInt (10 ^ 400)) = Raise OverflowError)
    by (vm_compute; reflexivity).
  rewrite E in H. exact H.
Qed.

(** The ratings of the specification's examples. *)
Lemma post_rating_examples :
  let post := post_rating (U := ascii_db) [] (u "lunch") 12 0
                (u "2026-02-03") (list row) keep_row in
  fst (post (rating_request (VFloat f10_05)) [])
    = Json400 "Rating must be between 0 and 10"
  /\ fst (post (rating_request (VInt (-1))) [])
     = Json400 "Rating must be between 0 and 10"
  /\ fst (post (rating_request (VStr (u "abc"))) [])
     = Json400 "Rating must be a number"
  /\ post (rating_request (VFloat f7_46)) []
     = (Json200 (u "lunch", f7_5),
        [(VStr (u "device-1"), VStr (u "John Jay"), u "columbia",
          u "lunch", f7_5, u "2026-02-03")])
  /\ fst (post (VDict [(u "rating", VInt 5)]) [])
     = Json400 "Missing required fields".
Proof. cbv zeta. repeat split; vm_compute; reflexivity. Qed.

End RatingsFacts.

(** ** The averages query *)

Module AveragesFacts.

Import Averages PyFacts.

Section Body.
Context {U : UnicodeDB}.
Variable menu : list Hall.
Variable default_period : str.
Variables now_hour now_minute : Z.
Variable current_date : str.
Variable Avg : Type.
Variable get_all_rating_averages :
  str -> option str -> option (gmap str (gmap str Avg)).

Local Abbreviation period_at :=
  (_get_hall_current_period default_period now_hour now_minute).

Lemma hall_periods_loop_ok (university : option str) (halls : list Hall)
  (acc : gmap str str) :
  named university halls ->
  exists hall_periods,
    hall_periods_loop default_period now_hour now_minute university halls acc
    = Ok hall_periods
    /\ forall key,
         hall_periods !! key
         = match period_of default_period now_hour now_minute university
                   key halls with
           | Some period => Some period
           | None => acc !! key
           end.
Proof.
  intros Hn. revert acc.
  induction Hn as [|hall rest Hh _ IH]; intros acc.
  - exists acc. split; reflexivity.
  - cbn [hall_periods_loop period_of]. unfold key_of.
    destruct (kept university (source_tag hall)) eqn:Ek; cbn [negb].
    + specialize (Hh eq_refl). unfold hall_key.
      destruct (name hall) as [n|]; [|congruence].
      set (key := if given university then Ok n else _).
      assert (Hkey : exists k, key = Ok k)
        by (unfold key; destruct (given university); eauto).
      destruct Hkey as [k ->]. cbn [mbind result_bind].
      destruct (IH (<[k := period_at hall]> acc)) as [hp [Hhp Hlook]].
      exists hp. split; [exact Hhp|]. intros key'. rewrite Hlook.
      destruct (period_of _ _ _ _ _ rest); [reflexivity|].
      destruct (str_eqb k key') eqn:E.
      * apply str_eqb_eq in E. subst key'. apply lookup_insert_eq.
      * apply str_eqb_neq in E. apply lookup_insert_ne. exact E.
    + destruct (IH acc) as [hp [Hhp Hlook]].
      exists hp. split; [exact Hhp|]. intros key'. rewrite Hlook.
      destruct (period_of _ _ _ _ _ rest); reflexivity.
Qed.

Lemma select_ratings_lookup (hall_periods : gmap str str)
  (all_ratings : gmap str (gmap str Avg)) (key : str) :
  select_ratings Avg hall_periods all_ratings !! key
  = match hall_periods !! key with
    | Some period =>
        match all_ratings !! key with
        | Some period_ratings => period_ratings !! period
        | None => None
        end
    | None => None
    end.
Proof.
  unfold select_ratings. rewrite map_lookup_imap.
  destruct (hall_periods !! key); reflexivity.
Qed.

(** The [try] block does what the query is meant to do: for each key of a
    kept hall, the stored entry for the period of (the last hall filed
    under) that key, and no entry where nothing is stored. *)
Lemma averages_try_spec (university : option str) (meal_period : str)
  (all_ratings : gmap str (gmap str Avg)) :
  named university menu ->
  get_all_rating_averages current_date university = Some all_ratings ->
  exists ratings,
    averages_try menu default_period now_hour now_minute current_date Avg
      get_all_rating_averages university meal_period
    = Json200 (meal_period, current_date, ratings)
    /\ forall key,
         ratings !! key
         = match period_of default_period now_hour now_minute university
                   key menu with
           | Some period =>
               match all_ratings !! key with
               | Some period_ratings => period_ratings !! period
               | None => None
               end
           | None => None
           end.
Proof.
  intros Hn Hall. unfold averages_try.
  destruct (hall_periods_loop_ok university menu ∅ Hn) as [hp [-> Hlook]].
  rewrite Hall. eexists. split; [reflexivity|].
  intros key. rewrite select_ratings_lookup, Hlook.
  destruct (period_of _ _ _ _ _ menu); [reflexivity|].
  rewrite lookup_empty. reflexivity.
Qed.

End Body.

(** [C1] The handler reads the name [hall_name], which is bound neither
    in the function nor at module level: every call raises [NameError]
    before any hall is looked at, whatever the menu, the filter and the
    stored ratings. *)
Theorem get_averages_name_error {U : UnicodeDB} (menu : list Hall)
  (default_period : str) (now_hour now_minute : Z)
  (current_date base_dir menu_file : str) (Avg : Type)
  (get_all_rating_averages :
     str -> option str -> option (gmap str (gmap str Avg)))
  (university_arg : option str) :
  get_averages menu default_period now_hour now_minute current_date
    base_dir menu_file Avg get_all_rating_averages university_arg
  = Unhandled (NameError "hall_name").
Proof. reflexivity. Qed.

End AveragesFacts.

(** * Further properties of the code *)

From Stdlib Require Import ZifyBool.

(** ** More on the time parser *)

Module TimeParserMore.

Import PyFacts TimeParserFacts Words.
Local Open Scope Z_scope.

(** [X1] A range whose end is before its start holds exactly the minutes
    that the range from its end to its start does not hold: the overnight
    range is the complement of the day range between the same two times.
    A range that starts and ends at the same minute holds nothing. *)
Theorem overnight_range_complement (current start end_ : Z) :
  _is_time_in_range current start start = false
  /\ (end_ < start ->
        _is_time_in_range current start end_
        = negb (_is_time_in_range current end_ start)).
Proof.
  unfold _is_time_in_range. split.
  - rewrite Z.ltb_irrefl.
    destruct (Z.leb_spec start current), (Z.ltb_spec current start);
      try reflexivity; lia.
  - intros H.
    destruct (Z.ltb_spec end_ start), (Z.ltb_spec start end_); lia.
Qed.

Lemma overnight_range_complement_witness :
  _is_time_in_range 30 1320 360 = negb (_is_time_in_range 30 360 1320).
Proof.
  apply (proj2 (overnight_range_complement 30 1320 360)). lia.
Defined.

(** [X2] The minute read from a valid time lies within one day, from 0 to
    1439, and two valid times that are read as the same minute are the same
    time. *)
Theorem valid_times_in_day_and_distinct {U : UnicodeDB}
  (h m : Z) (pm : bool) (h' m' : Z) (pm' : bool) :
  1 <= h <= 12 -> 0 <= m <= 59 -> 1 <= h' <= 12 -> 0 <= m' <= 59 ->
  (exists r, _parse_time_to_minutes (time_text h m pm) = Some r
             /\ 0 <= r < 1440)
  /\ (_parse_time_to_minutes (time_text h m pm)
      = _parse_time_to_minutes (time_text h' m' pm') ->
      h = h' /\ m = m' /\ pm = pm').
Proof.
  intros Hh Hm Hh' Hm'. rewrite !parse_time_text by assumption.
  unfold minutes_since_midnight. split.
  - eexists. split; [reflexivity|].
    destruct pm; Z.div_mod_to_equations; lia.
  - intros [= E].
    assert (pm = pm') as <-.
    { destruct pm, pm'; try reflexivity;
        exfalso; Z.div_mod_to_equations; lia. }
    split; [|split; [|reflexivity]];
      destruct pm; Z.div_mod_to_equations; lia.
Qed.

Lemma valid_times_in_day_and_distinct_witness :
  exists r, _parse_time_to_minutes (U := ascii_db) (time_text 12 5 false)
            = Some r /\ 0 <= r < 1440.
Proof.
  apply (proj1 (valid_times_in_day_and_distinct (U := ascii_db)
                  12 5 false 1 0 true ltac:(lia) ltac:(lia) ltac:(lia)
                  ltac:(lia))).
Defined.

Lemma upper_char_P (c : N) : ascii_upper c = 80%N -> c = 80%N \/ c = 112%N.
Proof.
  unfold ascii_upper, is_lower.
  destruct (N.leb_spec 97 c), (N.leb_spec c 122); cbn [andb]; lia.
Qed.

Lemma upper_char_M (c : N) : ascii_upper c = 77%N -> c = 77%N \/ c = 109%N.
Proof.
  unfold ascii_upper, is_lower.
  destruct (N.leb_spec 97 c), (N.leb_spec c 122); cbn [andb]; lia.
Qed.

Lemma upper_is_pm {U : UnicodeDB} (ampm : str) :
  ascii ampm -> str_eqb (upper ampm) (u "PM") = is_pm_spelling ampm.
Proof.
  intros Ha. unfold upper. rewrite Ha.
  destruct (is_pm_spelling ampm) eqn:E.
  - unfold is_pm_spelling in E. apply existsb_exists in E.
    destruct E as [x [Hx E]]. apply str_eqb_eq in E. subst x.
    destruct Hx as [<-|[<-|[<-|[<-|[]]]]]; reflexivity.
  - apply str_eqb_neq. intros Hup. change (u "PM") with [80%N; 77%N] in Hup.
    destruct ampm as [|a [|b [|c rest]]]; try discriminate Hup.
    cbn [map] in Hup. injection Hup as Ha' Hb'.
    apply upper_char_P in Ha'. apply upper_char_M in Hb'.
    destruct Ha' as [-> | ->], Hb' as [-> | ->]; discriminate E.
Qed.

(** [X3] Among the suffixes written in ASCII, only the four spellings
    ["PM"], ["Pm"], ["pM"] and ["pm"] make the hour an afternoon hour; any
    other second token, ["p.m."] for one, is read as AM. The hour and the
    minute are written with no more digits than [int] accepts (4300). *)
Theorem suffix_spellings {U : UnicodeDB} (s d1 d2 ampm : str) :
  split_ws s = [d1 ++ u ":" ++ d2; ampm] -> digits d1 -> digits d2 ->
  (length d1 <= 4300)%nat -> (length d2 <= 4300)%nat ->
  ascii ampm ->
  _parse_time_to_minutes s
  = Some (clock_hour (is_pm_spelling ampm) (digits_value d1) * 60
          + digits_value d2).
Proof.
  intros Hs H1 H2 L1 L2 Ha.
  rewrite parse_eq, Hs, parts_digits by assumption.
  rewrite (upper_is_pm ampm Ha). reflexivity.
Qed.

Lemma suffix_spellings_witness :
  _parse_time_to_minutes (U := ascii_db) (u "3:15 p.m.") = Some 195.
Proof.
  apply (suffix_spellings (U := ascii_db) _ (u "3") (u "15") (u "p.m.")).
  - reflexivity.
  - split; [discriminate | repeat constructor].
  - split; [discriminate | repeat constructor].
  - cbn. lia.
  - cbn. lia.
  - reflexivity.
Defined.

End TimeParserMore.

(** ** More on the meal-type normalization *)

Module ResolverMore.

Import PyFacts ResolverFacts Words.

Lemma lstrip_head_ok (s : str) : head_ok (lstrip s).
Proof.
  induction s as [|c s IH]; cbn [lstrip]; [exact I|].
  destruct (isspace c) eqn:E; [exact IH | exact E].
Qed.

Lemma head_ok_lstrip (s : str) : head_ok s -> lstrip s = s.
Proof. destruct s as [|c s]; cbn; [reflexivity|]. intros ->. reflexivity. Qed.

Lemma head_ok_prefix (a b : str) : head_ok (a ++ b) -> a <> [] -> head_ok a.
Proof. destruct a; [congruence | intros H _; exact H]. Qed.

Lemma strip_head_ok (s : str) : head_ok (strip s).
Proof.
  unfold strip. destruct (rstrip_split (lstrip s)) as [post [_ E]].
  destruct (rstrip (lstrip s)) as [|c r] eqn:Er; [exact I|].
  pose proof (lstrip_head_ok s) as H. rewrite E in H. exact H.
Qed.

Lemma strip_rev_head_ok (s : str) : head_ok (rev (strip s)).
Proof.
  unfold strip, rstrip. rewrite rev_involutive. apply lstrip_head_ok.
Qed.

Lemma strip_fixed (s : str) : head_ok s -> head_ok (rev s) -> strip s = s.
Proof.
  intros H1 H2. unfold strip, rstrip.
  rewrite (head_ok_lstrip s H1), (head_ok_lstrip _ H2). apply rev_involutive.
Qed.

Lemma fold_char_facts (c : N) :
  (isspace c = false -> isspace (fold_char c) = false)
  /\ (is_ascii c = true -> is_ascii (fold_char c) = true)
  /\ ascii_lower (fold_char c) = fold_char c
  /\ underscore (fold_char c) = fold_char c.
Proof.
  unfold fold_char, underscore, ascii_lower, is_upper, is_ascii, isspace.
  destruct ((65 <=? c)%N && (c <=? 90)%N) eqn:E;
    destruct (_ =? 32)%N eqn:E2;
    repeat split; intros;
    repeat match goal with
      | |- context [if ?b then _ else _] => destruct b eqn:?
      end; lia.
Qed.

Lemma head_ok_map (s : str) : head_ok s -> head_ok (map fold_char s).
Proof.
  destruct s as [|c s]; cbn; [trivial|]. apply fold_char_facts.
Qed.

Lemma map_fixed (f : N -> N) (s : str) :
  (forall c, f (fold_char c) = fold_char c) ->
  map f (map fold_char s) = map fold_char s.
Proof.
  intros H. rewrite map_map. apply map_ext. intros c; apply H.
Qed.

Section Normalizing.
Context {U : UnicodeDB}.

Lemma ascii_strip (s : str) : ascii s -> ascii (strip s).
Proof.
  unfold ascii. rewrite !forallb_forall. intros H c Hc.
  apply H, in_strip, Hc.
Qed.

Lemma ascii_map_fold (s : str) : ascii s -> ascii (map fold_char s).
Proof.
  unfold ascii. rewrite !forallb_forall. intros H c Hc.
  apply in_map_iff in Hc. destruct Hc as [x [<- Hx]].
  apply fold_char_facts, H, Hx.
Qed.

(** The value that the normalization works on, for an ASCII string. *)
Lemma normalized_value (s : str) :
  ascii s ->
  map underscore (lower (strip s)) = map fold_char (strip s).
Proof.
  intros Ha. unfold lower. rewrite (ascii_strip s Ha), map_map. reflexivity.
Qed.

Lemma normalized_value_fixed (s : str) :
  ascii s ->
  let value := map fold_char (strip s) in
  map underscore (lower (strip value)) = value.
Proof.
  intros Ha value.
  assert (Hs : strip value = value).
  { apply strip_fixed.
    - apply head_ok_map, strip_head_ok.
    - unfold value. rewrite <- map_rev. apply head_ok_map, strip_rev_head_ok. }
  rewrite Hs. unfold lower.
  rewrite (ascii_map_fold _ (ascii_strip s Ha) : forallb is_ascii value = true).
  unfold value. rewrite !map_fixed; [reflexivity | |];
    intros c; apply fold_char_facts.
Qed.

End Normalizing.

(** [X4] A meal type made of white space only is not taken for a missing
    one: it normalizes to the empty string, not to ["unknown"]. *)
Theorem blank_meal_type_is_empty {U : UnicodeDB} (s : str) :
  s <> [] -> spaces s -> _normalize_meal_type (Some s) = [].
Proof.
  intros Hne Hs. rewrite (normalize_meal_type_value s Hne). cbv zeta.
  assert (E : strip s = []).
  { unfold strip.
    rewrite <- (app_nil_r s), (lstrip_spaces s [] Hs). reflexivity. }
  rewrite E. reflexivity.
Qed.

Lemma blank_meal_type_is_empty_witness :
  _normalize_meal_type (U := ascii_db) (Some (u "  ")) = [].
Proof.
  apply (blank_meal_type_is_empty (U := ascii_db));
    [discriminate | repeat constructor].
Defined.

(** [X5] Normalizing a meal type written in ASCII twice gives the same as
    normalizing it once, as long as it is not made of white space only. *)
Theorem normalize_meal_type_idempotent {U : UnicodeDB} (s : str) :
  ascii s -> strip s <> [] ->
  _normalize_meal_type (Some (_normalize_meal_type (Some s)))
  = _normalize_meal_type (Some s).
Proof.
  intros Ha Hne.
  assert (Hs : s <> []) by (intros ->; apply Hne; reflexivity).
  rewrite (normalize_meal_type_value s Hs). cbv zeta.
  rewrite (normalized_value s Ha).
  destruct (startswith (map fold_char (strip s)) (u "late")) eqn:El.
  - reflexivity.
  - assert (Hv : map fold_char (strip s) <> []).
    { destruct (strip s); [congruence | discriminate]. }
    rewrite (normalize_meal_type_value _ Hv). cbv zeta.
    rewrite (normalized_value_fixed s Ha), El. reflexivity.
Qed.

Lemma normalize_meal_type_idempotent_witness :
  _normalize_meal_type (U := ascii_db)
    (Some (_normalize_meal_type (U := ascii_db) (Some (u " Grab  and Go "))))
  = _normalize_meal_type (U := ascii_db) (Some (u " Grab  and Go ")).
Proof.
  apply (normalize_meal_type_idempotent (U := ascii_db));
    [reflexivity | discriminate].
Defined.

End ResolverMore.

(** ** The hall lookup *)

Module LookupFacts.

Import PyFacts Words.

Section Finding.
Context {U : UnicodeDB}.
Variable menu : list Hall.

Lemma matches_strings (n uv : str) (hall : Hall) :
  matches (VStr n) (VStr uv) hall = Ok (answers n uv hall).
Proof.
  unfold matches, answers, named_as, belongs, name_differs.
  destruct (name hall) as [m|]; [|reflexivity].
  destruct (str_eqb m n); cbn [negb andb]; [|reflexivity].
  destruct uv as [|c uv]; [reflexivity|]. cbn [truthy negb value_lower].
  cbn [mbind result_bind].
  destruct (str_eqb (lower (c :: uv)) (u "columbia")); reflexivity.
Qed.

Lemma first_match_strings (n uv : str) (data : list Hall) :
  first_match (VStr n) (VStr uv) data = Ok (List.find (answers n uv) data).
Proof.
  induction data as [|hall rest IH]; [reflexivity|].
  cbn [first_match List.find]. rewrite matches_strings.
  cbn [mbind result_bind]. destruct (answers n uv hall); [reflexivity|].
  exact IH.
Qed.

Lemma find_first {A : Type} (p : A -> bool) (l : list A) :
  match List.find p l with
  | Some x =>
      exists before after,
        l = before ++ x :: after /\ p x = true
        /\ Forall (fun y => p y = false) before
  | None => Forall (fun y => p y = false) l
  end.
Proof.
  induction l as [|a l IH]; cbn [List.find]; [constructor|].
  destruct (p a) eqn:E.
  - exists [], l. repeat split; [exact E | constructor].
  - destruct (List.find p l) as [x|].
    + destruct IH as [before [after [-> [Hx Hb]]]].
      exists (a :: before), after. repeat split; [exact Hx|].
      constructor; assumption.
    + constructor; assumption.
Qed.

Lemma find_absent {A : Type} (p : A -> bool) (l : list A) :
  (forall x, In x l -> p x = false) -> List.find p l = None.
Proof.
  induction l as [|a l IH]; intros H; cbn [List.find]; [reflexivity|].
  rewrite (H a (or_introl eq_refl)). apply IH.
  intros x Hx. apply H. right. exact Hx.
Qed.

Lemma matches_odd (n : str) (university : value) (hall : Hall) :
  odd_university university ->
  matches (VStr n) university hall
  = if named_as n hall then Raise AttributeError else Ok false.
Proof.
  intros [Ht Hs]. unfold matches, named_as, name_differs.
  destruct (name hall) as [m|]; [|reflexivity].
  destruct (str_eqb m n); cbn [negb]; [|reflexivity].
  rewrite Ht. cbn [negb].
  destruct university; try reflexivity. destruct (Hs s eq_refl).
Qed.

Lemma first_match_odd (n : str) (university : value) (data : list Hall) :
  odd_university university ->
  first_match (VStr n) university data
  = if existsb (named_as n) data then Raise AttributeError else Ok None.
Proof.
  intros Ho. induction data as [|hall rest IH]; [reflexivity|].
  cbn [first_match existsb]. rewrite (matches_odd n university hall Ho).
  destruct (named_as n hall); [reflexivity|]. exact IH.
Qed.

Lemma lower_lower (s : str) : ascii s -> lower (lower s) = lower s.
Proof.
  intros Ha.
  assert (E : forallb is_ascii (map ascii_lower s) = true).
  { unfold ascii in Ha. rewrite forallb_forall in *. intros c Hc.
    apply in_map_iff in Hc. destruct Hc as [x [<- Hx]].
    specialize (Ha x Hx). unfold is_ascii, ascii_lower, is_upper in *.
    destruct ((65 <=? x)%N && (x <=? 90)%N) eqn:E; lia. }
  unfold lower. rewrite Ha, E, map_map. apply map_ext. intros c.
  unfold ascii_lower, is_upper.
  destruct ((65 <=? c)%N && (c <=? 90)%N) eqn:E1; [|rewrite E1; reflexivity].
  destruct ((65 <=? c + 32)%N && (c + 32 <=? 90)%N) eqn:E2; lia.
Qed.

Lemma matches_lowered (hall_name : value) (uv : str) (hall : Hall) :
  ascii uv ->
  matches hall_name (VStr (lower uv)) hall = matches hall_name (VStr uv) hall.
Proof.
  intros Ha. unfold matches.
  destruct (name_differs hall hall_name); [reflexivity|].
  assert (Ht : truthy (VStr (lower uv)) = truthy (VStr uv)).
  { unfold lower. rewrite Ha. destruct uv; reflexivity. }
  rewrite Ht. destruct (truthy (VStr uv)); [|reflexivity].
  cbn [negb value_lower]. rewrite (lower_lower uv Ha). reflexivity.
Qed.

End Finding.

(** [X6] With a name and a university that are strings the lookup never
    raises. The hall it answers is the first hall of the menu that bears
    the name and belongs to the university (any hall when the university is
    empty, Columbia and Barnard halls alike when it is Columbia); it answers
    none exactly when the menu has no such hall. *)
Theorem find_hall_entry_first {U : UnicodeDB} (menu : list Hall)
  (n uv : str) :
  n <> [] ->
  exists r,
    _find_hall_entry menu (VStr n) (VStr uv) = Ok r
    /\ match r with
       | Some hall =>
           exists before after,
             menu = before ++ hall :: after
             /\ answers n uv hall = true
             /\ Forall (fun x => answers n uv x = false) before
       | None => Forall (fun x => answers n uv x = false) menu
       end.
Proof.
  intros Hn. exists (List.find (answers n uv) menu). split.
  - unfold _find_hall_entry. destruct n; [congruence|].
    apply first_match_strings.
  - apply find_first.
Qed.

Lemma find_hall_entry_first_witness :
  exists r,
    _find_hall_entry (U := ascii_db)
      [Scrapers.sample_hall "Hewitt" "barnard" "open"]
      (VStr (u "Hewitt")) (VStr (u "Columbia")) = Ok r.
Proof.
  destruct (find_hall_entry_first (U := ascii_db)
              [Scrapers.sample_hall "Hewitt" "barnard" "open"]
              (u "Hewitt") (u "Columbia") ltac:(discriminate))
    as [r [Hr _]].
  exists r. exact Hr.
Defined.

(** [X7] With a university that is true but not a string (a number, a
    list) the lookup raises [AttributeError] exactly when the menu has a
    hall that bears the name, and answers none otherwise. *)
Theorem find_hall_entry_odd_university {U : UnicodeDB} (menu : list Hall)
  (n : str) (university : value) :
  n <> [] -> odd_university university ->
  _find_hall_entry menu (VStr n) university
  = if existsb (named_as n) menu then Raise AttributeError else Ok None.
Proof.
  intros Hn Ho. unfold _find_hall_entry. destruct n; [congruence|].
  apply first_match_odd, Ho.
Qed.

Lemma find_hall_entry_odd_university_witness :
  _find_hall_entry (U := ascii_db)
    [Scrapers.sample_hall "Hewitt" "barnard" "open"]
    (VStr (u "Hewitt")) (VInt 5)
  = Raise AttributeError.
Proof.
  apply (find_hall_entry_odd_university (U := ascii_db)
           [Scrapers.sample_hall "Hewitt" "barnard" "open"] (u "Hewitt")
           (VInt 5)).
  - discriminate.
  - split; [reflexivity | discriminate].
Defined.

(** [X8] The case of an ASCII university does not matter: the lookup
    answers the same for it and for its lower case. *)
Theorem find_hall_entry_case {U : UnicodeDB} (menu : list Hall)
  (hall_name : value) (uv : str) :
  ascii uv ->
  _find_hall_entry menu hall_name (VStr (lower uv))
  = _find_hall_entry menu hall_name (VStr uv).
Proof.
  intros Ha. unfold _find_hall_entry.
  destruct (truthy hall_name); [|reflexivity]. cbn [negb].
  induction menu as [|hall rest IH]; [reflexivity|].
  cbn [first_match]. rewrite (matches_lowered hall_name uv hall Ha), IH.
  reflexivity.
Qed.

Lemma find_hall_entry_case_witness :
  _find_hall_entry (U := ascii_db)
    [Scrapers.sample_hall "Hewitt" "barnard" "open"]
    (VStr (u "Hewitt")) (VStr (lower (U := ascii_db) (u "COLUMBIA")))
  = _find_hall_entry (U := ascii_db)
      [Scrapers.sample_hall "Hewitt" "barnard" "open"]
      (VStr (u "Hewitt")) (VStr (u "COLUMBIA")).
Proof.
  apply (find_hall_entry_case (U := ascii_db)). reflexivity.
Defined.

(** [X9] The alias goes one way: asked for Columbia the lookup finds a
    hall tagged Barnard, asked for Barnard it does not find a hall tagged
    Columbia. *)
Theorem alias_one_way {U : UnicodeDB} (menu : list Hall) (n : str) :
  n <> [] ->
  (Forall (fun hall => named_as n hall = true ->
                       source_tag hall = u "columbia") menu ->
   _find_hall_entry menu (VStr n) (VStr (u "barnard")) = Ok None)
  /\ (forall hall,
        In hall menu -> named_as n hall = true ->
        source_tag hall = u "barnard" ->
        exists found,
          _find_hall_entry menu (VStr n) (VStr (u "columbia"))
          = Ok (Some found)
          /\ named_as n found = true).
Proof.
  intros Hn.
  assert (E : forall uv, _find_hall_entry menu (VStr n) (VStr uv)
                         = Ok (List.find (answers n uv) menu)).
  { intros uv. unfold _find_hall_entry. destruct n; [congruence|].
    apply first_match_strings. }
  split.
  - intros Hall. rewrite E. f_equal.
    apply find_absent. intros hall Hin.
    rewrite List.Forall_forall in Hall. specialize (Hall hall Hin).
    unfold answers. destruct (named_as n hall); [|reflexivity].
    unfold belongs. cbn. rewrite (Hall eq_refl). reflexivity.
  - intros hall Hin Hname Htag. rewrite E.
    destruct (List.find (answers n (u "columbia")) menu) as [found|] eqn:F.
    + exists found. split; [reflexivity|].
      apply find_some in F. destruct F as [_ F].
      unfold answers in F. apply andb_true_iff in F. apply F.
    + exfalso. pose proof (find_none _ _ F hall Hin) as N.
      unfold answers, belongs in N. rewrite Hname, Htag in N.
      discriminate N.
Qed.

Lemma alias_one_way_witness :
  _find_hall_entry (U := ascii_db)
    [Scrapers.sample_hall "John Jay" "columbia" "open"]
    (VStr (u "John Jay")) (VStr (u "barnard")) = Ok None.
Proof.
  apply (proj1 (alias_one_way (U := ascii_db)
                  [Scrapers.sample_hall "John Jay" "columbia" "open"]
                  (u "John Jay") ltac:(discriminate))).
  repeat constructor.
Defined.

(** [X10] A request for a hall that the menu does not have, or with an
    empty or missing name, gets the global default period, whatever is
    given as university. *)
Theorem unknown_hall_default_period {U : UnicodeDB} (menu : list Hall)
  (default_period : str) (now_hour now_minute : Z) (n : str)
  (university : value) :
  (existsb (named_as n) menu = false ->
   _get_hall_period_for_request menu default_period now_hour now_minute
     (VStr n) university = Ok default_period)
  /\ _get_hall_period_for_request menu default_period now_hour now_minute
       (VStr []) university = Ok default_period
  /\ _get_hall_period_for_request menu default_period now_hour now_minute
       VNone university = Ok default_period.
Proof.
  split; [|split; reflexivity].
  intros Hno. unfold _get_hall_period_for_request, _find_hall_entry.
  destruct (truthy (VStr n)); [|reflexivity]. cbn [negb].
  assert (E : first_match (VStr n) university menu = Ok None).
  { induction menu as [|hall rest IH]; [reflexivity|].
    cbn [existsb] in Hno. apply orb_false_iff in Hno. destruct Hno as [Hh Hr].
    cbn [first_match]. unfold matches, name_differs.
    unfold named_as in Hh. destruct (name hall) as [m|].
    - rewrite Hh. cbn [negb mbind result_bind]. apply IH, Hr.
    - cbn [mbind result_bind]. apply IH, Hr. }
  rewrite E. reflexivity.
Qed.

Lemma unknown_hall_default_period_witness :
  _get_hall_period_for_request (U := ascii_db)
    [Scrapers.sample_hall "Hewitt" "barnard" "open"] (u "lunch") 12 0
    (VStr (u "Nowhere")) (VInt 5) = Ok (u "lunch").
Proof.
  apply (proj1 (unknown_hall_default_period (U := ascii_db)
                  [Scrapers.sample_hall "Hewitt" "barnard" "open"]
                  (u "lunch") 12 0 (u "Nowhere") (VInt 5))).
  reflexivity.
Defined.

End LookupFacts.

(** ** More on the rating submission *)

Module RatingsMore.

Import Ratings RatingsFacts Words.
Local Open Scope Z_scope.









Section Handler.
Context {U : UnicodeDB}.
Variable menu : list Hall.
Variable default_period : str.
Variables now_hour now_minute : Z.
Variable current_date : str.
Variable DB : Type.
Variable submit_rating :
  value -> value -> str -> str -> float -> str -> DB -> DB * bool.

Local Abbreviation post :=
  (post_rating menu default_period now_hour now_minute current_date DB
     submit_rating).

Lemma refusal_keeps_store (data : value) (db : DB) :
  match fst (post data db) with
  | Json400 _ | Unhandled _ => snd (post data db) = db
  | _ => True
  end.
Proof.
  unfold post_rating.
  destruct (truthy data); cbn [negb]; [|reflexivity].
  destruct (all_in data required) as [[|]|e]; try reflexivity.
  destruct (_ ≫= _) as [rating|e]; [|destruct e; reflexivity].
  destruct (negb _); [reflexivity|].
  destruct (_ ≫= _) as [period|e]; [|reflexivity].
  destruct (_ ≫= _) as [[[dev hn] uni]|e]; [|exact I].
  destruct (submit_rating _ _ _ _ _ _ _) as [db' raised].
  destruct raised; exact I.
Qed.

Lemma all_in_list (l : list value) (fields : list str) :
  all_in (VList l) fields
  = Ok (forallb (fun f => existsb (fun x => match x with
                                            | VStr s => str_eqb s f
                                            | _ => false
                                            end) l) fields).
Proof.
  induction fields as [|f fields IH]; [reflexivity|].
  cbn [all_in forallb field_in mbind result_bind].
  destruct (existsb _ l); [exact IH | reflexivity].
Qed.

Lemma all_in_string (s : str) (fields : list str) :
  all_in (VStr s) fields = Ok (forallb (fun f => contains f s) fields).
Proof.
  induction fields as [|f fields IH]; [reflexivity|].
  cbn [all_in forallb field_in mbind result_bind].
  destruct (contains f s); [exact IH | reflexivity].
Qed.

Lemma held_in_list (l : list value) (fields : list str) :
  forallb (fun f => existsb (fun x => match x with
                                      | VStr s => str_eqb s f
                                      | _ => false
                                      end) l) fields = true
  <-> (forall f, In f fields -> In (VStr f) l).
Proof.
  rewrite forallb_forall. split; intros H f Hf; specialize (H f Hf).
  - apply existsb_exists in H. destruct H as [x [Hx E]].
    destruct x; try discriminate E. apply PyFacts.str_eqb_eq in E.
    subst. exact Hx.
  - apply existsb_exists. exists (VStr f). split; [exact H|].
    apply PyFacts.str_eqb_refl.
Qed.

Lemma held_in_string (s : str) (fields : list str) :
  forallb (fun f => contains f s) fields = true
  <-> (forall f, In f fields -> occurs f s).
Proof.
  rewrite forallb_forall. split; intros H f Hf; specialize (H f Hf);
    apply TimeParserFacts.occurs_contains; exact H.
Qed.

End Handler.

(** [X11] A submission that is refused, or that fails before the store is
    called, leaves the store as it was: whenever the handler answers a
    validation error or lets an exception out, no rating is written. *)
Theorem refused_rating_not_stored {U : UnicodeDB} (menu : list Hall)
  (default_period : str) (now_hour now_minute : Z) (current_date : str)
  (DB : Type)
  (submit_rating :
     value -> value -> str -> str -> float -> str -> DB -> DB * bool)
  (data : value) (db : DB) :
  let answer :=
    post_rating menu default_period now_hour now_minute current_date DB
      submit_rating data db in
  match fst answer with
  | Json400 _ | Unhandled _ => snd answer = db
  | _ => True
  end.
Proof. cbv zeta. apply refusal_keeps_store. Qed.

Lemma refused_rating_not_stored_witness :
  snd (post_rating (U := ascii_db) [] (u "lunch") 12 0 (u "2026-02-03")
         (list row) keep_row (rating_request (VStr (u "good"))) [])
  = [].
Proof.
  exact (refused_rating_not_stored (U := ascii_db) [] (u "lunch") 12 0
           (u "2026-02-03") (list row) keep_row
           (rating_request (VStr (u "good"))) []).
Defined.

(** [X12] A body that is not a JSON object. A JSON array or a JSON string
    is always refused with a validation error: ["Rating must be a number"]
    when it holds all four field names (as elements of the array, as
    parts of the string), since [data['rating']] then raises [TypeError],
    which is caught; ["Missing required fields"] when it does not, the
    empty array and the empty string among them. A body that is a number
    other than zero, or [true], makes the handler fail with [TypeError];
    [null], [false] and zero are refused as missing fields. *)
Theorem body_not_an_object {U : UnicodeDB} (menu : list Hall)
  (default_period : str) (now_hour now_minute : Z) (current_date : str)
  (DB : Type)
  (submit_rating :
     value -> value -> str -> str -> float -> str -> DB -> DB * bool)
  (data : value) (db : DB) :
  (forall d, data <> VDict d) ->
  let answer :=
    fst (post_rating menu default_period now_hour now_minute current_date
           DB submit_rating data db) in
  let names := [u "device_id"; u "hall_name"; u "university"; u "rating"] in
  match data with
  | VList l =>
      ((forall f, In f names -> In (VStr f) l) ->
         answer = Json400 "Rating must be a number")
      /\ (~ (forall f, In f names -> In (VStr f) l) ->
            answer = Json400 "Missing required fields")
  | VStr s =>
      ((forall f, In f names -> occurs f s) ->
         answer = Json400 "Rating must be a number")
      /\ (~ (forall f, In f names -> occurs f s) ->
            answer = Json400 "Missing required fields")
  | _ =>
      answer = if truthy data then Unhandled TypeError
               else Json400 "Missing required fields"
  end.
Proof.
  intros Hd. cbv zeta. unfold post_rating.
  destruct data as [|b|z|f|s|l|d|]; cbn [truthy negb].
  - reflexivity.
  - destruct b; reflexivity.
  - destruct (negb (z =? 0)); reflexivity.
  - destruct (negb (float_is_zero f)); reflexivity.
  - pose proof (held_in_string s required) as H.
    destruct s as [|c s].
    + split; [|reflexivity]. intros Hall.
      destruct (Hall (u "rating") ltac:(cbn; tauto)) as [x [y E]].
      destruct x; discriminate E.
    + rewrite all_in_string.
      destruct (forallb _ required).
      * split; [reflexivity|]. intros Hn. destruct Hn. apply H. reflexivity.
      * split; [|reflexivity]. intros Hall. apply H in Hall.
        discriminate Hall.
  - pose proof (held_in_list l required) as H.
    destruct l as [|x l].
    + split; [|reflexivity]. intros Hall.
      destruct (Hall (u "rating") ltac:(cbn; tauto)).
    + rewrite all_in_list.
      destruct (forallb _ required).
      * split; [reflexivity|]. intros Hn. destruct Hn. apply H. reflexivity.
      * split; [|reflexivity]. intros Hall. apply H in Hall.
        discriminate Hall.
  - destruct (Hd d eq_refl).
  - reflexivity.
Qed.

Lemma body_not_an_object_witness :
  fst (post_rating (U := ascii_db) [] (u "lunch") 12 0 (u "2026-02-03")
         (list row) keep_row
         (VList [VStr (u "device_id"); VStr (u "hall_name");
                 VStr (u "university"); VStr (u "rating")]) [])
  = Json400 "Rating must be a number".
Proof.
  apply (body_not_an_object (U := ascii_db) [] (u "lunch") 12 0
           (u "2026-02-03") (list row) keep_row
           (VList [VStr (u "device_id"); VStr (u "hall_name");
                   VStr (u "university"); VStr (u "rating")]) []
           ltac:(discriminate)).
  intros f [<-|[<-|[<-|[<-|[]]]]]; cbn; tauto.
Defined.



End RatingsMore.

(** ** More on the legacy schema normalizer *)

Module LegacyMore.

Import Legacy Words.

Section Items.
Context {U : UnicodeDB}.

Lemma legacy_item_shape (item : value) :
  if item_shape item
  then exists r, legacy_item item = Ok r
                 /\ match r with
                    | Some i => named_item item = true
                                /\ item_name i = raw_name item
                    | None => named_item item = false
                    end
  else legacy_item item = Raise AttributeError.
Proof.
  destruct item as [| | | |s|l|d|]; cbn [item_shape]; try reflexivity.
  - unfold legacy_item, named_item. cbn [mbind result_bind raw_name].
    destruct (truthy (VStr s)); cbn [negb]; eexists; split;
      reflexivity || (split; reflexivity).
  - unfold legacy_item, named_item. cbn [mbind result_bind raw_name].
    destruct (truthy (get d (u "name") (VStr []))); cbn [negb]; eexists;
      split; reflexivity || (split; reflexivity).
Qed.

Lemma legacy_items_shape (raw : list value) :
  if forallb item_shape raw
  then exists items, legacy_items raw = Ok items
                     /\ map item_name items
                        = map raw_name (List.filter named_item raw)
  else legacy_items raw = Raise AttributeError.
Proof.
  induction raw as [|item raw IH]; cbn [forallb legacy_items].
  - exists []. split; reflexivity.
  - pose proof (legacy_item_shape item) as H.
    destruct (item_shape item); cbn [andb].
    + destruct H as [r [-> Hr]]. cbn [mbind result_bind].
      destruct (forallb item_shape raw).
      * destruct IH as [items [-> IH]]. cbn [mbind result_bind List.filter].
        destruct r as [i|].
        -- destruct Hr as [-> Hn]. exists (i :: items). split; [reflexivity|].
           cbn [map]. rewrite Hn, IH. reflexivity.
        -- rewrite Hr. exists items. split; [reflexivity | exact IH].
      * rewrite IH. reflexivity.
    + rewrite H. reflexivity.
Qed.

End Items.

(** [X14] A document without the key ["meals"] is normalized exactly when
    its raw items can be looped over and each of them is a string or an
    object: a raw value that is a number, [true] or another object that
    cannot be iterated makes the normalizer raise [TypeError], and a raw
    item that is a number, a list or [null] makes it raise
    [AttributeError]. *)
Theorem legacy_normalization_outcome {U : UnicodeDB}
  (py_str_other : value -> str) (now_iso : str) (hall : list (str * value)) :
  has_key hall (u "meals") = false ->
  match iterate (raw_items_of hall) with
  | Raise _ =>
      _normalize_legacy_hall py_str_other now_iso hall = Raise TypeError
  | Ok raw =>
      if forallb item_shape raw
      then exists out,
             _normalize_legacy_hall py_str_other now_iso hall = Ok out
      else _normalize_legacy_hall py_str_other now_iso hall
           = Raise AttributeError
  end.
Proof.
  intros H. unfold _normalize_legacy_hall. rewrite H.
  change (py_or _ _) with (raw_items_of hall).
  destruct (raw_items_of hall) as [| | | |s|l|d|]; cbn [iterate];
    try reflexivity; cbn [mbind result_bind].
  all: match goal with |- context [forallb item_shape ?raw] =>
         pose proof (legacy_items_shape raw) as L;
         destruct (forallb item_shape raw);
         [destruct L as [items [-> _]]; cbn [mbind result_bind];
          eexists; reflexivity
         |rewrite L; reflexivity]
       end.
Qed.

Lemma legacy_normalization_outcome_witness :
  _normalize_legacy_hall (U := ascii_db) (fun _ => [])
    (u "2026-02-03T12:00:00")
    [ (u "name", VStr (u "John Jay")); (u "food_items", VList [VInt 3]) ]
  = Raise AttributeError.
Proof.
  apply (legacy_normalization_outcome (U := ascii_db) (fun _ => [])
           (u "2026-02-03T12:00:00")
           [ (u "name", VStr (u "John Jay"));
             (u "food_items", VList [VInt 3]) ]).
  reflexivity.
Defined.

(** [X15] What the normalizer makes of the raw items: the menu of the
    result holds one item for each raw item that has a name, in the order
    of the document and under the same name, and the raw items without a
    name are left out. A document that has no status of its own is
    reported ["open"] when some raw item has a name and ["open_no_menu"]
    otherwise. *)
Theorem legacy_items_kept {U : UnicodeDB}
  (py_str_other : value -> str) (now_iso : str)
  (hall out : list (str * value)) (raw : list value) :
  has_key hall (u "meals") = false ->
  iterate (raw_items_of hall) = Ok raw ->
  _normalize_legacy_hall py_str_other now_iso hall = Ok out ->
  (exists items,
     menu_items out = Some items
     /\ map item_name items = map raw_name (List.filter named_item raw))
  /\ dict_lookup out (u "status")
     = Some (get hall (u "status")
               (VStr (if existsb named_item raw then u "open"
                      else u "open_no_menu"))).
Proof.
  intros H Hraw. unfold _normalize_legacy_hall. rewrite H.
  change (py_or _ _) with (raw_items_of hall). rewrite Hraw.
  cbn [mbind result_bind].
  pose proof (legacy_items_shape raw) as L.
  destruct (forallb item_shape raw).
  2:{ rewrite L. discriminate. }
  destruct L as [items [-> L]]. cbn [mbind result_bind]. intros [= <-].
  split.
  - exists items. split; [reflexivity | exact L].
  - assert (E : match items with [] => false | _ => true end
                = existsb named_item raw).
    { assert (E1 : existsb named_item raw
                   = match List.filter named_item raw with
                     | [] => false | _ => true end).
      { clear. induction raw as [|x raw IH]; [reflexivity|].
        cbn [existsb List.filter]. destruct (named_item x); [reflexivity|].
        exact IH. }
      rewrite E1. destruct items, (List.filter named_item raw);
        try reflexivity; discriminate L. }
    rewrite <- E. destruct items; reflexivity.
Qed.

Lemma legacy_items_kept_witness :
  exists out items,
    _normalize_legacy_hall (U := ascii_db) (fun _ => [])
      (u "2026-02-03T12:00:00") legacy_doc = Ok out
    /\ menu_items out = Some items
    /\ map item_name items = [VStr (u "Pizza"); VStr (u "Soup")]
    /\ dict_lookup out (u "status") = Some (VStr (u "open")).
Proof.
  destruct (_normalize_legacy_hall (U := ascii_db) (fun _ => [])
              (u "2026-02-03T12:00:00") legacy_doc) as [out|e] eqn:E;
    [|discriminate E].
  destruct (legacy_items_kept (U := ascii_db) (fun _ => [])
              (u "2026-02-03T12:00:00") legacy_doc out
              [ VStr (u "Pizza");
                VDict [ (u "name", VStr (u "Soup"));
                        (u "protein_g", VInt 5) ];
                VStr [] ] eq_refl eq_refl E) as [[items [H1 H2]] H3].
  exists out, items. split; [reflexivity|]. split; [exact H1|].
  split; [exact H2 | exact H3].
Defined.

End LegacyMore.

(** ** The menu endpoint *)

Module MenuFacts.

Import Legacy Menu Words.

Section Serving.
Context {U : UnicodeDB}.
Variable py_str_other : value -> str.
Variable clock : nat -> str.
Variable disk : nat -> file.

Local Abbreviation respond := (respond py_str_other clock).
Local Abbreviation wait := (wait py_str_other clock disk).
Local Abbreviation opened := (opened py_str_other clock disk).

Lemma normalize_all_canonical (i : nat) (halls : list value) :
  forallb canonical halls = true ->
  normalize_all py_str_other clock i halls = Ok halls.
Proof.
  revert i; induction halls as [|hall halls IH]; intros i; [reflexivity|].
  cbn [forallb normalize_all]. rewrite andb_true_iff. intros [Hc Hs].
  destruct hall as [| | | | | |d|]; try discriminate Hc.
  cbn [normalize_entry canonical] in *.
  rewrite (LegacyFacts.canonical_unchanged _ _ _ Hc).
  cbn [mbind result_bind]. rewrite (IH _ Hs). reflexivity.
Qed.

Lemma normalize_entry_meals (now_iso : str) (hall out : value) :
  normalize_entry py_str_other now_iso hall = Ok out -> with_meals out = true.
Proof.
  destruct hall as [| | | |s|l|d|]; cbn [normalize_entry]; try discriminate.
  - destruct (contains _ s); [|discriminate]. intros [= <-]. reflexivity.
  - destruct (existsb _ l); [|discriminate]. intros [= <-]. reflexivity.
  - destruct (_normalize_legacy_hall _ _ d) as [d'|e] eqn:E; [|discriminate].
    cbn [mbind result_bind]. intros [= <-].
    exact (LegacyFacts.normalized_has_meals _ _ _ _ E).
Qed.

Lemma normalize_all_meals (i : nat) (halls body : list value) :
  normalize_all py_str_other clock i halls = Ok body ->
  forallb with_meals body = true /\ length body = length halls.
Proof.
  revert i body; induction halls as [|hall halls IH]; intros i body.
  - intros [= <-]. split; reflexivity.
  - cbn [normalize_all].
    destruct (normalize_entry _ _ hall) as [h|e] eqn:E; [|discriminate].
    cbn [mbind result_bind].
    destruct (normalize_all _ _ (S i) halls) as [hs|e] eqn:Es; [|discriminate].
    cbn [mbind result_bind]. intros [= <-].
    destruct (IH _ _ Es) as [H1 H2]. cbn [forallb length].
    rewrite (normalize_entry_meals _ _ _ E), H1, H2. split; reflexivity.
Qed.

Lemma respond_answers (data : value) : respond data <> Unavailable.
Proof. unfold Menu.respond. destruct (_ ≫= _); discriminate. Qed.

Lemma respond_served (data : value) (body : list value) :
  respond data = Served body ->
  forallb with_meals body = true
  /\ exists raw, iterate data = Ok raw /\ length body = length raw.
Proof.
  unfold Menu.respond. destruct (iterate data) as [raw|e]; [|discriminate].
  cbn [mbind result_bind].
  destruct (normalize_all _ _ 0 raw) as [b|e] eqn:E; [|discriminate].
  intros [= <-]. destruct (normalize_all_meals _ _ _ E) as [H1 H2].
  split; [exact H1|]. exists raw. split; [reflexivity | exact H2].
Qed.

Lemma opened_answers (i : nat) : opened i <> Unavailable.
Proof.
  unfold Menu.opened. destruct (disk i); try discriminate.
  apply respond_answers.
Qed.

Lemma wait_missing (rounds i slept : nat) :
  (forall k, k < rounds -> disk (i + k) = Missing) ->
  wait rounds i slept = (Unavailable, slept + rounds).
Proof.
  revert i slept; induction rounds as [|rounds IH]; intros i slept H.
  - cbn [Menu.wait]. rewrite Nat.add_0_r. reflexivity.
  - cbn [Menu.wait]. pose proof (H 0 ltac:(lia)) as H0.
    rewrite Nat.add_0_r in H0. rewrite H0, IH.
    + f_equal. lia.
    + intros k Hk. replace (S i + k) with (i + S k) by lia. apply H. lia.
Qed.

Lemma wait_found (rounds i slept j : nat) :
  j < rounds ->
  (forall k, k < j -> disk (i + k) = Missing) ->
  disk (i + j) <> Missing ->
  wait rounds i slept = (opened (S (i + j)), slept + j).
Proof.
  revert i slept j; induction rounds as [|rounds IH]; intros i slept j Hj H Hf;
    [lia|].
  cbn [Menu.wait]. destruct j as [|j].
  - rewrite !Nat.add_0_r in *. unfold Menu.opened.
    destruct (disk i); [destruct (Hf eq_refl)| |]; reflexivity.
  - pose proof (H 0 ltac:(lia)) as H0. rewrite Nat.add_0_r in H0. rewrite H0.
    rewrite (IH (S i) (S slept) j); [f_equal; [f_equal; f_equal|]; lia|lia| |].
    + intros k Hk. replace (S i + k) with (i + S k) by lia. apply H. lia.
    + replace (S i + j) with (i + S j) by lia. exact Hf.
Qed.

Lemma wait_unavailable (rounds i slept : nat) :
  fst (wait rounds i slept) = Unavailable ->
  forall k, k < rounds -> disk (i + k) = Missing.
Proof.
  revert i slept; induction rounds as [|rounds IH]; intros i slept H k Hk;
    [lia|].
  cbn [Menu.wait] in H. destruct (disk i) eqn:E.
  - destruct k as [|k]; [rewrite Nat.add_0_r; exact E|].
    replace (i + S k) with (S i + k) by lia. apply (IH _ _ H). lia.
  - cbn [fst] in H. destruct (disk (S i)); try discriminate H.
    destruct (respond_answers _ H).
  - cbn [fst] in H. destruct (disk (S i)); try discriminate H.
    destruct (respond_answers _ H).
Qed.

Lemma wait_served (rounds i slept : nat) (body : list value) :
  fst (wait rounds i slept) = Served body ->
  exists j data, disk j = Content data /\ respond data = Served body.
Proof.
  revert i slept; induction rounds as [|rounds IH]; intros i slept H;
    [discriminate H|].
  cbn [Menu.wait] in H. destruct (disk i) as [| |found].
  - exact (IH _ _ H).
  - cbn [fst] in H. destruct (disk (S i)) as [| |data] eqn:E;
      try discriminate H.
    exists (S i), data. split; [exact E | exact H].
  - cbn [fst] in H. destruct (disk (S i)) as [| |data] eqn:E;
      try discriminate H.
    exists (S i), data. split; [exact E | exact H].
Qed.

Lemma wait_slept (rounds i slept : nat) :
  snd (wait rounds i slept) <= slept + rounds.
Proof.
  revert i slept; induction rounds as [|rounds IH]; intros i slept;
    cbn [Menu.wait].
  - cbn [snd]. lia.
  - destruct (disk i); [|cbn [snd]; lia..].
    pose proof (IH (S i) (S slept)). lia.
Qed.

End Serving.

(** [X16] A file in the canonical schema is served as it is stored: when
    the first read finds a list of objects that all have the key
    ["meals"], the answer is that very list, no refresh is started and the
    handler does not wait. *)
Theorem canonical_file_served {U : UnicodeDB} (py_str_other : value -> str)
  (clock : nat -> str) (disk : nat -> file) (halls : list value) :
  disk 0 = Content (VList halls) ->
  forallb canonical halls = true ->
  get_dining_halls py_str_other clock disk = (Served halls, false, 0).
Proof.
  intros H Hc. unfold get_dining_halls, Menu.respond. rewrite H.
  cbn [iterate mbind result_bind].
  rewrite (normalize_all_canonical _ _ _ _ Hc). reflexivity.
Qed.

Lemma canonical_file_served_witness :
  get_dining_halls (U := ascii_db) (fun _ => []) (fun _ => [])
    (appears 0 (VList [VDict canonical_doc]))
  = (Served [VDict canonical_doc], false, 0).
Proof.
  apply (canonical_file_served (U := ascii_db) (fun _ => []) (fun _ => [])
           (appears 0 (VList [VDict canonical_doc]))
           [VDict canonical_doc]); reflexivity.
Defined.

(** [X17] The answer is "Menu data not available" exactly when the file is
    missing at the first read and at each of the fifteen checks that
    follow; the handler has then slept fifteen seconds. A refresh is
    started exactly when the first read finds no file, and the handler
    never sleeps more than fifteen seconds. *)
Theorem unavailable_iff_missing {U : UnicodeDB} (py_str_other : value -> str)
  (clock : nat -> str) (disk : nat -> file) :
  let '(reply, triggered, slept) :=
    get_dining_halls py_str_other clock disk in
  (reply = Unavailable <-> forall i, i <= 15 -> disk i = Missing)
  /\ (reply = Unavailable -> slept = 15)
  /\ (triggered = true <-> disk 0 = Missing)
  /\ slept <= 15.
Proof.
  unfold get_dining_halls. destruct (disk 0) as [| |data] eqn:E0.
  - destruct (Menu.wait py_str_other clock disk 15 1 0) as [a slept] eqn:Ew.
    assert (Hu : a = Unavailable ->
                 forall k, k < 15 -> disk (1 + k) = Missing).
    { intros Ha. apply (wait_unavailable py_str_other clock disk 15 1 0).
      rewrite Ew. exact Ha. }
    assert (Hm : (forall k, k < 15 -> disk (1 + k) = Missing) ->
                 a = Unavailable /\ slept = 15).
    { intros H. rewrite (wait_missing py_str_other clock disk 15 1 0 H) in Ew.
      injection Ew as <- <-. split; reflexivity. }
    assert (Hs : slept <= 15).
    { pose proof (wait_slept py_str_other clock disk 15 1 0) as G.
      rewrite Ew in G. exact G. }
    split; [split|split; [|split; [split; reflexivity | exact Hs]]].
    + intros Ha i Hi. destruct i as [|i]; [exact E0|].
      apply (Hu Ha i). lia.
    + intros H. apply Hm. intros k Hk. apply H. lia.
    + intros Ha. apply Hm, Hu, Ha.
  - split; [split; [discriminate|]|split; [discriminate|split; [|lia]]].
    + intros H. rewrite (H 0 ltac:(lia)) in E0. discriminate E0.
    + split; discriminate.
  - split; [split|split; [|split; [|lia]]].
    + intros H. destruct (respond_answers _ _ _ H).
    + intros H. rewrite (H 0 ltac:(lia)) in E0. discriminate E0.
    + intros H. destruct (respond_answers _ _ _ H).
    + split; discriminate.
Qed.

Lemma unavailable_iff_missing_witness :
  fst (fst (get_dining_halls (U := ascii_db) (fun _ => []) (fun _ => [])
              (fun _ => Missing)))
  = Unavailable.
Proof.
  pose proof (unavailable_iff_missing (U := ascii_db) (fun _ => [])
                (fun _ => []) (fun _ => Missing)) as H.
  destruct (get_dining_halls _ _ _) as [[reply triggered] slept].
  destruct H as [[_ H] _]. apply H. intros i _. reflexivity.
Defined.

(** [X18] A file that comes into being while the handler waits is served:
    when the file is missing at the first read and at the first [k]
    checks, [k] below fifteen, and is there at the next check, the answer
    is made from what the read after that check finds, after [k] seconds
    of sleep; if the file is gone again by then, the [FileNotFoundError]
    leaves the handler. *)
Theorem late_file_served {U : UnicodeDB} (py_str_other : value -> str)
  (clock : nat -> str) (disk : nat -> file) (k : nat) :
  k < 15 ->
  (forall i, i <= k -> disk i = Missing) ->
  disk (S k) <> Missing ->
  get_dining_halls py_str_other clock disk
  = (match disk (S (S k)) with
     | Missing => Escaped FileNotFoundError
     | Broken => Escaped ReadError
     | Content data => respond py_str_other clock data
     end, true, k).
Proof.
  intros Hk Hm Hf. unfold get_dining_halls. rewrite (Hm 0 ltac:(lia)).
  rewrite (wait_found py_str_other clock disk 15 1 0 k Hk).
  - reflexivity.
  - intros i Hi. apply Hm. lia.
  - exact Hf.
Qed.

Lemma late_file_served_witness :
  get_dining_halls (U := ascii_db) (fun _ => []) (fun _ => [])
    (appears 4 (VList [VDict canonical_doc]))
  = (Served [VDict canonical_doc], true, 3).
Proof.
  apply (late_file_served (U := ascii_db) (fun _ => []) (fun _ => [])
           (appears 4 (VList [VDict canonical_doc])) 3).
  - lia.
  - intros i Hi. unfold appears.
    destruct (Nat.ltb_spec i 4); [reflexivity | lia].
  - discriminate.
Defined.

(** [X19] Whatever is served has the shape of the canonical schema: every
    entry of a served list that is an object has the key ["meals"], and
    the list has one entry for each entry of the document it was made
    from. *)
Theorem served_entries_have_meals {U : UnicodeDB}
  (py_str_other : value -> str) (clock : nat -> str) (disk : nat -> file)
  (body : list value) :
  fst (fst (get_dining_halls py_str_other clock disk)) = Served body ->
  forallb with_meals body = true
  /\ exists i raw, disk i = Content raw
                   /\ (exists entries, iterate raw = Ok entries
                                       /\ length body = length entries).
Proof.
  unfold get_dining_halls. destruct (disk 0) as [| |data] eqn:E0.
  - destruct (Menu.wait py_str_other clock disk 15 1 0) as [a slept] eqn:Ew.
    cbn [fst]. intros Ha.
    destruct (wait_served py_str_other clock disk 15 1 0 body)
      as [j [data [Hj Hr]]]; [rewrite Ew; exact Ha|].
    destruct (respond_served _ _ _ _ Hr) as [H1 H2].
    split; [exact H1|]. exists j, data. split; [exact Hj | exact H2].
  - discriminate.
  - cbn [fst]. intros Hr.
    destruct (respond_served _ _ _ _ Hr) as [H1 H2].
    split; [exact H1|]. exists 0, data. split; [exact E0 | exact H2].
Qed.

Lemma served_entries_have_meals_witness :
  forallb with_meals
    [VDict [ (u "name", VStr (u "Dining Hall"));
             (u "meals",
                VList [VDict [ (u "meal_type", VStr (u "Meal"));
                               (u "time", VStr []);
                               (u "stations",
                                  VList [VDict [ (u "station",
                                                    VStr (u "Menu"));
                                                 (u "items", VList []) ]]) ]]);
             (u "status", VStr (u "open_no_menu"));
             (u "source", VStr (u "legacy"));
             (u "scraped_at", VStr (u "now"));
             (u "operating_hours", VNone);
             (u "is_open", VNone) ]] = true.
Proof.
  apply (served_entries_have_meals (U := ascii_db) (fun _ => [])
           (fun _ => u "now") (appears 0 (VList [VDict []]))).
  reflexivity.
Defined.

End MenuFacts.

(** ** More on the scraper runner *)

Module ScrapersMore.

Import Scrapers Words.

Section Merging.
Context {U : UnicodeDB}.

Lemma not_error (r : Hall) :
  negb (is_error r) = true <-> status r <> Some (u "error").
Proof.
  unfold is_error. destruct (status r) as [s|].
  - rewrite negb_true_iff, PyFacts.str_eqb_neq. split; congruence.
  - split; [discriminate | reflexivity].
Qed.

Lemma in_filter_by_source (r : Hall) (data : list Hall) (source : str) :
  In r (_filter_by_source data source)
  <-> In r data /\ _get_source_tag r = source.
Proof.
  unfold _filter_by_source. rewrite filter_In, PyFacts.str_eqb_eq.
  reflexivity.
Qed.

Lemma filter_by_source_again (data : list Hall) (source : str) :
  _filter_by_source (_filter_by_source data source) source
  = _filter_by_source data source.
Proof.
  unfold _filter_by_source. induction data as [|r data IH]; [reflexivity|].
  cbn [List.filter]. destruct (str_eqb _ source) eqn:E; [|exact IH].
  cbn [List.filter]. rewrite E, IH. reflexivity.
Qed.

Lemma filter_by_source_other (data : list Hall) (source other : str) :
  source <> other ->
  _filter_by_source (_filter_by_source data source) other = [].
Proof.
  intros H. unfold _filter_by_source.
  induction data as [|r data IH]; [reflexivity|].
  cbn [List.filter]. destruct (str_eqb _ source) eqn:E; [|exact IH].
  cbn [List.filter]. apply PyFacts.str_eqb_eq in E.
  destruct (str_eqb _ other) eqn:E'; [|exact IH].
  apply PyFacts.str_eqb_eq in E'. congruence.
Qed.

Lemma fallback_of_nothing (existing_data : list Hall) (source : str) :
  with_fallback [] existing_data source
  = _filter_by_source existing_data source.
Proof.
  unfold with_fallback. cbn [_is_scrape_successful].
  destruct (_filter_by_source existing_data source); reflexivity.
Qed.

Lemma in_with_fallback (r : Hall) (results existing_data : list Hall)
  (source : str) :
  In r (with_fallback results existing_data source) ->
  In r results \/ (In r existing_data /\ _get_source_tag r = source).
Proof.
  unfold with_fallback. destruct (_is_scrape_successful results source);
    [left; assumption|].
  destruct (_filter_by_source existing_data source) as [|x fallback] eqn:E;
    [left; assumption|].
  rewrite <- E. intros H. right. apply in_filter_by_source. exact H.
Qed.

End Merging.

(** [X20] A scrape counts as successful exactly when it returned at least
    one entry of the university asked for whose status is not ["error"];
    entries of other sources do not count. *)
Theorem scrape_successful_iff {U : UnicodeDB} (results : list Hall)
  (source : str) :
  _is_scrape_successful results source = true
  <-> exists r, In r results /\ _get_source_tag r = source
                /\ status r <> Some (u "error").
Proof.
  unfold _is_scrape_successful. split.
  - destruct results as [|x results]; [discriminate|].
    destruct (_filter_by_source (x :: results) source) as [|y src] eqn:E;
      [discriminate|].
    rewrite <- E. intros H. apply existsb_exists in H.
    destruct H as [r [Hin Hr]]. apply in_filter_by_source in Hin.
    exists r. split; [apply Hin|]. split; [apply Hin|].
    apply not_error. exact Hr.
  - intros [r [Hin [Ht Hs]]].
    assert (Hf : In r (_filter_by_source results source))
      by (apply in_filter_by_source; split; assumption).
    destruct results as [|x results]; [destruct Hin|].
    destruct (_filter_by_source (x :: results) source) as [|y src] eqn:E;
      [destruct Hf|].
    apply existsb_exists. exists r. split; [exact Hf|].
    apply not_error. exact Hs.
Qed.

Lemma scrape_successful_iff_witness :
  _is_scrape_successful (U := ascii_db)
    [sample_hall "Hewitt" "barnard" "open";
     sample_hall "John Jay" "columbia" "error"] (u "columbia")
  = false.
Proof.
  apply not_true_is_false. intros H.
  apply (scrape_successful_iff (U := ascii_db)) in H.
  destruct H as [r [[<-|[<-|[]]] [Ht Hs]]].
  - vm_compute in Ht. discriminate Ht.
  - apply Hs. reflexivity.
Defined.

(** [X21] Where the entries of the combined result come from: each was
    returned by one of the two scrapers in this run, or is an entry of the
    saved file whose source tag is ["columbia"] or ["cornell"]. A saved
    entry of any other source, ["barnard"] among them, is never carried
    over. *)
Theorem saved_entries_carried_over {U : UnicodeDB} (output_file : file)
  (columbia cornell : option (list Hall)) (r : Hall) :
  In r (snd (run_all_scrapers output_file columbia cornell)) ->
  In r (default [] columbia) \/ In r (default [] cornell)
  \/ exists halls,
       output_file = Doc halls /\ In r halls
       /\ (_get_source_tag r = u "columbia"
           \/ _get_source_tag r = u "cornell").
Proof.
  unfold run_all_scrapers. cbv zeta.
  set (existing := match output_file with Doc halls => halls | _ => [] end).
  assert (He : forall x, In x existing ->
                         exists halls, output_file = Doc halls /\ In x halls).
  { subst existing. destruct output_file as [| |halls]; intros x Hx;
      try destruct Hx. exists halls. split; [reflexivity | exact Hx]. }
  intros H.
  assert (Hin : In r (with_fallback (default [] columbia) existing
                        (u "columbia")
                      ++ with_fallback (default [] cornell) existing
                           (u "cornell")))
    by (destruct (too_many_errors _); exact H).
  clear H. apply in_app_or in Hin.
  destruct Hin as [Hin|Hin]; apply in_with_fallback in Hin;
    destruct Hin as [Hin|[Hin Ht]].
  - left. exact Hin.
  - right. right. destruct (He r Hin) as [halls [-> Hh]].
    exists halls. split; [reflexivity|]. split; [exact Hh | left; exact Ht].
  - right. left. exact Hin.
  - right. right. destruct (He r Hin) as [halls [-> Hh]].
    exists halls. split; [reflexivity|]. split; [exact Hh | right; exact Ht].
Qed.

Lemma saved_entries_carried_over_witness :
  ~ In (sample_hall "Hewitt" "barnard" "open")
      (snd (run_all_scrapers (U := ascii_db)
              (Doc [sample_hall "Hewitt" "barnard" "open";
                    sample_hall "John Jay" "columbia" "open"])
              None None)).
Proof.
  intros H.
  destruct (saved_entries_carried_over (U := ascii_db)
              (Doc [sample_hall "Hewitt" "barnard" "open";
                    sample_hall "John Jay" "columbia" "open"])
              None None (sample_hall "Hewitt" "barnard" "open") H)
    as [[]|[[]|[halls [_ [_ [Ht|Ht]]]]]]; vm_compute in Ht; discriminate Ht.
Defined.

(** [X22] A refresh in which both scrapers raise or return nothing is
    idempotent: a second such refresh finds the file as the first one left
    it, leaves it so, and returns the same list. *)
Theorem failing_refresh_idempotent {U : UnicodeDB} (output_file : file)
  (columbia cornell columbia' cornell' : option (list Hall)) :
  nothing columbia -> nothing cornell ->
  nothing columbia' -> nothing cornell' ->
  run_all_scrapers
    (fst (run_all_scrapers output_file columbia cornell)) columbia' cornell'
  = run_all_scrapers output_file columbia cornell.
Proof.
  unfold nothing. intros H1 H2 H3 H4. unfold run_all_scrapers. cbv zeta.
  rewrite H1, H2, H3, H4, !fallback_of_nothing.
  set (existing := match output_file with Doc halls => halls | _ => [] end).
  destruct (too_many_errors
              (_filter_by_source existing (u "columbia")
               ++ _filter_by_source existing (u "cornell"))) eqn:E.
  - cbn [fst]. fold existing. rewrite E. reflexivity.
  - cbn [fst].
    assert (Hc : forall a b : str, a <> b ->
              _filter_by_source
                (_filter_by_source existing a ++ _filter_by_source existing b)
                a = _filter_by_source existing a).
    { intros a b Hab. unfold _filter_by_source at 1.
      rewrite List.filter_app. fold (_filter_by_source
        (_filter_by_source existing a) a).
      fold (_filter_by_source (_filter_by_source existing b) a).
      rewrite filter_by_source_again, filter_by_source_other by congruence.
      apply app_nil_r. }
    assert (Hd : forall a b : str, a <> b ->
              _filter_by_source
                (_filter_by_source existing a ++ _filter_by_source existing b)
                b = _filter_by_source existing b).
    { intros a b Hab. unfold _filter_by_source at 1.
      rewrite List.filter_app. fold (_filter_by_source
        (_filter_by_source existing a) b).
      fold (_filter_by_source (_filter_by_source existing b) b).
      rewrite filter_by_source_again, filter_by_source_other by congruence.
      reflexivity. }
    rewrite (Hc (u "columbia") (u "cornell")) by discriminate.
    rewrite (Hd (u "columbia") (u "cornell")) by discriminate.
    rewrite E. reflexivity.
Qed.

Lemma failing_refresh_idempotent_witness :
  run_all_scrapers (U := ascii_db)
    (fst (run_all_scrapers (U := ascii_db)
            (Doc [sample_hall "Hewitt" "barnard" "open";
                  sample_hall "John Jay" "columbia" "open"]) None None))
    (Some []) None
  = (Doc [sample_hall "John Jay" "columbia" "open"],
     [sample_hall "John Jay" "columbia" "open"]).
Proof.
  rewrite (failing_refresh_idempotent (U := ascii_db)
             (Doc [sample_hall "Hewitt" "barnard" "open";
                   sample_hall "John Jay" "columbia" "open"])
             None None (Some []) None
             eq_refl eq_refl eq_refl eq_refl).
  reflexivity.
Defined.

End ScrapersMore.

(** ** More on the refresh orchestration *)

Module RefreshMore.

Import Refresh RefreshFacts Words.








Lemma last_lookup (ws : list worker) (w : worker) :
  (ws ++ [w]) !! length ws = Some w.
Proof. induction ws as [|x ws IH]; [reflexivity | exact IH]. Qed.

Lemma last_insert (ws : list worker) (w w' : worker) :
  <[length ws := w']> (ws ++ [w]) = ws ++ [w'].
Proof.
  induction ws as [|x ws IH]; [reflexivity|].
  cbn [length app]. change (<[S (length ws) := w']> (x :: ws ++ [w]))
    with (x :: <[length ws := w']> (ws ++ [w])).
  rewrite IH. reflexivity.
Qed.

Ltac last_step H :=
  unfold move, with_worker in H; cbn [workers lock flag sched] in H;
  rewrite last_insert in H; exact H.

Lemma last_acquire (auto_refresh : bool) (s : state) (f : bool) :
  step auto_refresh (with_worker s false f Acquire)
    (with_worker s true f Test).
Proof.
  pose proof (step_acquire auto_refresh (with_worker s false f Acquire)
                (length (workers s)) (last_lookup _ _) eq_refl) as H.
  last_step H.
Qed.

Lemma last_test (auto_refresh : bool) (s : state) (f : bool) :
  step auto_refresh (with_worker s true f Test)
    (with_worker s true f (if f then Leave true else SetFlag)).
Proof.
  pose proof (step_test auto_refresh (with_worker s true f Test)
                (length (workers s)) (last_lookup _ _)) as H.
  last_step H.
Qed.

Lemma last_set (auto_refresh : bool) (s : state) :
  step auto_refresh (with_worker s true false SetFlag)
    (with_worker s true true (Leave false)).
Proof.
  pose proof (step_set auto_refresh (with_worker s true false SetFlag)
                (length (workers s)) (last_lookup _ _)) as H.
  last_step H.
Qed.

Lemma last_leave (auto_refresh : bool) (s : state) (skip : bool) :
  step auto_refresh (with_worker s true true (Leave skip))
    (with_worker s false true (if skip then Done else Run)).
Proof.
  pose proof (step_leave auto_refresh (with_worker s true true (Leave skip))
                (length (workers s)) skip (last_lookup _ _)) as H.
  last_step H.
Qed.

Lemma last_finish (auto_refresh : bool) (s : state) (l : bool) :
  step auto_refresh (with_worker s l true Run) (with_worker s l true Clear).
Proof.
  pose proof (step_finish auto_refresh (with_worker s l true Run)
                (length (workers s)) (last_lookup _ _)) as H.
  last_step H.
Qed.

Lemma last_clear (auto_refresh : bool) (s : state) (l : bool) :
  step auto_refresh (with_worker s l true Clear) (with_worker s l false Done).
Proof.
  pose proof (step_clear auto_refresh (with_worker s l true Clear)
                (length (workers s)) (last_lookup _ _)) as H.
  last_step H.
Qed.

(** The state reached from the start by one trigger whose thread has gone
    as far as [update_menus]. *)
Lemma reachable_running (auto_refresh : bool) :
  reachable auto_refresh (with_worker init false true Run).
Proof.
  eapply reach_step; [|exact (last_leave auto_refresh init false)].
  eapply reach_step; [|exact (last_set auto_refresh init)].
  eapply reach_step; [|exact (last_test auto_refresh init false)].
  eapply reach_step; [|exact (last_acquire auto_refresh init false)].
  eapply reach_step; [|exact (step_trigger auto_refresh init)].
  apply reach_init.
Qed.

(** [X23] What the guard ensures in every state the server can be in: of
    the refreshes started through [trigger_refresh_async] at most one is
    inside [update_menus], and while one is, the flag is set; when the
    daily job is not registered, no more than one run of [update_menus]
    is in flight at all. *)
Theorem guard_excludes (auto_refresh : bool) (s : state) :
  reachable auto_refresh s ->
  count running (workers s) <= 1
  /\ (0 < count running (workers s) -> flag s = true)
  /\ (auto_refresh = false -> in_flight s <= 1).
Proof.
  intros H. destruct (reachable_guarded _ _ H) as (_ & Hf & _).
  pose proof (count_le running owns_flag (workers s)
                ltac:(intros []; cbn; congruence)) as Hle.
  split; [destruct (flag s); lia|]. split.
  - intros Hr. destruct (flag s); [reflexivity | lia].
  - intros ->. exact (one_run_without_schedule s H).
Qed.

Lemma guard_excludes_witness :
  flag (with_worker init false true Run) = true
  /\ in_flight (with_worker init false true Run) <= 1.
Proof.
  destruct (guard_excludes false (with_worker init false true Run)
              (reachable_running false)) as (_ & Hf & Hi).
  split; [apply Hf; cbn; lia | apply Hi; reflexivity].
Defined.



(** [X25] What one trigger does when its thread is not interleaved with
    others and the lock is free: if a refresh is in progress (the flag is
    set) the thread ends without calling [update_menus] and leaves the
    flag set; otherwise it sets the flag, releases the lock and enters
    [update_menus], and when that returns it clears the flag. *)
Theorem trigger_alone (auto_refresh : bool) (s : state) :
  lock s = false ->
  rtc (step auto_refresh) s
    (with_worker s false true (if flag s then Done else Run))
  /\ rtc (step auto_refresh) (with_worker s false true Run)
       (with_worker s false false Done).
Proof.
  intros Hk. split.
  - eapply rtc_l; [exact (step_trigger auto_refresh s)|].
    change {| lock := lock s; flag := flag s;
              workers := workers s ++ [Acquire]; sched := sched s |}
      with (with_worker s (lock s) (flag s) Acquire).
    rewrite Hk.
    eapply rtc_l; [exact (last_acquire auto_refresh s (flag s))|].
    eapply rtc_l; [exact (last_test auto_refresh s (flag s))|].
    destruct (flag s).
    + eapply rtc_l; [exact (last_leave auto_refresh s true)|]. apply rtc_refl.
    + eapply rtc_l; [exact (last_set auto_refresh s)|].
      eapply rtc_l; [exact (last_leave auto_refresh s false)|]. apply rtc_refl.
  - eapply rtc_l; [exact (last_finish auto_refresh s false)|].
    eapply rtc_l; [exact (last_clear auto_refresh s false)|]. apply rtc_refl.
Qed.

Lemma trigger_alone_witness :
  rtc (step false) (with_worker init false true Run)
    (with_worker (with_worker init false true Run) false true Done).
Proof.
  apply (trigger_alone false (with_worker init false true Run)).
  reflexivity.
Defined.

End RefreshMore.
